(** * Stockman: chat page, ticker, and service worker

    A shallow embedding of the Stockman web client
    ([frontend/js/app.js], in its ticker and briefing variants) and of
    its service worker, with the properties stated about them.

    JavaScript strings are sequences of UTF-16 code units, values coming
    out of [response.json()] are JSON trees, and every handler is a
    computation over an explicit world (DOM state, platform state, the
    answers of the network, and a chronological log of effects) that
    either returns or throws. *)

From Stdlib Require Import String Ascii DecimalString.
From stdpp Require Import base numbers option list gmap.

Set Warnings "-register-all".
Open Scope N_scope.

(** ** JavaScript values *)

Module Js.

(** A string is the list of its UTF-16 code units. *)
Definition jsstring := list N.

(** ASCII literals of the source. *)
Definition str (s : string) : jsstring :=
  List.map N_of_ascii (list_ascii_of_string s).

(** Values: [undefined] and what [JSON.parse] builds. Numbers are kept
    as integers; the code below only tests them for zero or compares
    them.  An object lists its members in source order. *)
Inductive value : Type :=
| VUndefined
| VNull
| VBool (b : bool)
| VNum (n : Z)
| VStr (s : jsstring)
| VArr (items : list value)
| VObj (fields : list (jsstring * value)).

Inductive exn : Type :=
| TypeError
| SyntaxError
| NetworkError
| Error (message : jsstring).

Inductive result (A : Type) : Type :=
| Ok (a : A)
| Throw (e : exn).
Arguments Ok {A} a.
Arguments Throw {A} e.

(** ToBoolean. *)
Definition truthy (v : value) : bool :=
  match v with
  | VUndefined | VNull => false
  | VBool b => b
  | VNum n => negb (n =? 0)%Z
  | VStr s => match s with [] => false | _ => true end
  | VArr _ | VObj _ => true
  end.

Definition eqs (a b : jsstring) : bool := bool_decide (a = b).

(** Member lookup in a parsed object: the last member with the key wins,
    as [JSON.parse] has it. *)
Fixpoint lookup_field (k : jsstring) (fields : list (jsstring * value))
  : option value :=
  match fields with
  | [] => None
  | (k', v) :: rest =>
      match lookup_field k rest with
      | Some w => Some w
      | None => if eqs k k' then Some v else None
      end
  end.

(** [v.k] for a key [k] that no prototype defines ([reply], [text],
    [wisdom], [audio], [portfolio], [watchlist], [ticker], ...):
    reading off [undefined] or [null] throws, an object answers with
    its member, anything else with [undefined]. *)
Definition get (v : value) (k : jsstring) : result value :=
  match v with
  | VUndefined | VNull => Throw TypeError
  | VObj fields => Ok (default VUndefined (lookup_field k fields))
  | _ => Ok VUndefined
  end.

(** *** Character classes of the regular expressions *)

Definition is_line_terminator (c : N) : bool :=
  (c =? 10) || (c =? 13) || (c =? 8232) || (c =? 8233).

(** [\s], which is also what [trim] strips. *)
Definition is_white_space (c : N) : bool :=
  (c =? 9) || (c =? 11) || (c =? 12) || (c =? 32) || (c =? 160)
  || (c =? 5760) || ((8192 <=? c) && (c <=? 8202)) || (c =? 8239)
  || (c =? 8287) || (c =? 12288) || (c =? 65279)
  || is_line_terminator c.

Definition is_digit (c : N) : bool := (48 <=? c) && (c <=? 57).

(** *** String methods *)

Fixpoint drop_while (p : N -> bool) (s : jsstring) : jsstring :=
  match s with
  | [] => []
  | c :: t => if p c then drop_while p t else s
  end.

Fixpoint take_while (p : N -> bool) (s : jsstring) : jsstring :=
  match s with
  | [] => []
  | c :: t => if p c then c :: take_while p t else []
  end.

Definition trim (s : jsstring) : jsstring :=
  rev (drop_while is_white_space (rev (drop_while is_white_space s))).

Fixpoint starts_with (p s : jsstring) : bool :=
  match p, s with
  | [], _ => true
  | a :: p', b :: s' => (a =? b) && starts_with p' s'
  | _ :: _, [] => false
  end.

Fixpoint includes (s sub : jsstring) : bool :=
  starts_with sub s ||
  match s with
  | [] => false
  | _ :: t => includes t sub
  end.

(** [String(v)], as a template literal applies it.  Numbers print in
    decimal, which is what JavaScript prints below 10^21. *)
Fixpoint join_comma (parts : list jsstring) : jsstring :=
  match parts with
  | [] => []
  | [p] => p
  | p :: rest => p ++ 44 :: join_comma rest
  end.

Fixpoint to_string (v : value) : jsstring :=
  match v with
  | VUndefined => str "undefined"
  | VNull => str "null"
  | VBool true => str "true"
  | VBool false => str "false"
  | VNum n => str (NilZero.string_of_int (Z.to_int n))
  | VStr s => s
  | VArr items =>
      join_comma
        (List.map (fun x => match x with
                            | VUndefined | VNull => []
                            | _ => to_string x
                            end) items)
  | VObj _ => str "[object Object]"
  end.

(** SameValueZero, the equality of [Set].  Two arrays or objects that
    [JSON.parse] built are never the same reference. *)
Definition same_value_zero (a b : value) : bool :=
  match a, b with
  | VUndefined, VUndefined | VNull, VNull => true
  | VBool x, VBool y => bool_decide (x = y)
  | VNum x, VNum y => (x =? y)%Z
  | VStr x, VStr y => eqs x y
  | _, _ => false
  end.

(** [[...new Set(items)]]: first occurrences, in insertion order. *)
Definition set_add (seen : list value) (v : value) : list value :=
  if existsb (same_value_zero v) seen then seen else seen ++ [v].

Definition set_of (items : list value) : list value :=
  fold_left set_add items [].

(** [s.replace(/c/g, by)] for a single code unit [c]. *)
Definition replace_char (c : N) (by_ : jsstring) (s : jsstring) : jsstring :=
  List.flat_map (fun x => if x =? c then by_ else [x]) s.

End Js.

Import Js.

(** ** Message rendering ([formatMessage] and the user branch of [addMessage]) *)

Module Render.

(** *** The global regular-expression replacements of [formatMessage]

    Each pass scans the string from the left.  [skip] counts the code
    units of the current match that are still to be passed over; a
    match replaces them, a failed attempt at a position copies one
    code unit and moves on. *)

(** [(.*?)] followed by the two closing delimiters: the shortest run
    of code units other than line terminators after which [c c]
    stands. *)
Fixpoint lazy_until_pair (c : N) (s : jsstring) : option jsstring :=
  match s with
  | a :: ((b :: _) as t) =>
      if (a =? c) && (b =? c) then Some []
      else if is_line_terminator a then None
      else cons a <$> lazy_until_pair c t
  | _ => None
  end.

(** A match of [/cc(.*?)cc/] at the head of [s]: its capture. *)
Definition strong_at (c : N) (s : jsstring) : option jsstring :=
  match s with
  | a :: b :: u => if (a =? c) && (b =? c) then lazy_until_pair c u else None
  | _ => None
  end.

(** [.replace(/\*\*(.*?)\*\*/g, '<strong>$1</strong>')] with [c = 42],
    [.replace(/__(.*?)__/g, ...)] with [c = 95]. *)
Fixpoint replace_strong (c : N) (skip : nat) (s : jsstring) : jsstring :=
  match s with
  | [] => []
  | a :: t =>
      match skip with
      | S k => replace_strong c k t
      | O =>
          match strong_at c s with
          | Some cap =>
              str "<strong>" ++ cap ++ str "</strong>"
                ++ replace_strong c (length cap + 3) t
          | None => a :: replace_strong c 0 t
          end
      end
  end.

(** A match of [/c([^c]+)c/] at the head of [s]: its capture. *)
Definition em_at (c : N) (s : jsstring) : option jsstring :=
  match s with
  | a :: t =>
      if a =? c then
        let cap := take_while (fun x => negb (x =? c)) t in
        match cap, drop_while (fun x => negb (x =? c)) t with
        | _ :: _, _ :: _ => Some cap
        | _, _ => None
        end
      else None
  | [] => None
  end.

(** [.replace(/\*([^*]+)\*/g, '<em>$1</em>')] with [c = 42],
    [.replace(/_([^_]+)_/g, ...)] with [c = 95]. *)
Fixpoint replace_em (c : N) (skip : nat) (s : jsstring) : jsstring :=
  match s with
  | [] => []
  | a :: t =>
      match skip with
      | S k => replace_em c k t
      | O =>
          match em_at c s with
          | Some cap =>
              str "<em>" ++ cap ++ str "</em>" ++ replace_em c (length cap + 1) t
          | None => a :: replace_em c 0 t
          end
      end
  end.

(** [(.+)$] under the [m] flag: the rest of the line, not empty. *)
Definition text_to_eol (r : jsstring) : option jsstring :=
  match take_while (fun x => negb (is_line_terminator x)) r with
  | [] => None
  | cap => Some cap
  end.

(** [\s*(.+)$], greedy with backtracking: the white space taken and
    the capture. *)
Fixpoint ws_star_text (r : jsstring) : option (nat * jsstring) :=
  match r with
  | [] => None
  | a :: t =>
      match (if is_white_space a then ws_star_text t else None) with
      | Some (j, cap) => Some (S j, cap)
      | None => pair O <$> text_to_eol r
      end
  end.

(** [\s+(.+)$]. *)
Definition ws_plus_text (r : jsstring) : option (nat * jsstring) :=
  match r with
  | a :: t =>
      if is_white_space a
      then (fun '(j, cap) => (S j, cap)) <$> ws_star_text t
      else None
  | [] => None
  end.

(** The line markers: [[-•]] and [\d+\.]; each answers with the number
    of code units it takes and what follows. *)
Definition bullet_marker (s : jsstring) : option (nat * jsstring) :=
  match s with
  | a :: t => if (a =? 45) || (a =? 8226) then Some (1%nat, t) else None
  | [] => None
  end.

Definition number_marker (s : jsstring) : option (nat * jsstring) :=
  match take_while is_digit s, drop_while is_digit s with
  | (_ :: _) as ds, dot :: t =>
      if dot =? 46 then Some (S (length ds), t) else None
  | _, _ => None
  end.

(** A match of [/^marker\s+(.+)$/m] at the head of [s], which is at the
    start of a line: its length and its capture. *)
Definition li_at (marker : jsstring -> option (nat * jsstring))
    (s : jsstring) : option (nat * jsstring) :=
  match marker s with
  | Some (m, r) =>
      match ws_plus_text r with
      | Some (j, cap) => Some ((m + j + length cap)%nat, cap)
      | None => None
      end
  | None => None
  end.

(** [.replace(/^marker\s+(.+)$/gm, '<li>$1</li>')]; [bol] tells whether
    the position is the start of the input or follows a line
    terminator. *)
Fixpoint replace_li (marker : jsstring -> option (nat * jsstring))
    (bol : bool) (skip : nat) (s : jsstring) : jsstring :=
  match s with
  | [] => []
  | a :: t =>
      match skip with
      | S k => replace_li marker (is_line_terminator a) k t
      | O =>
          match (if bol then li_at marker s else None) with
          | Some (len, cap) =>
              str "<li>" ++ cap ++ str "</li>"
                ++ replace_li marker (is_line_terminator a) (len - 1) t
          | None => a :: replace_li marker (is_line_terminator a) 0 t
          end
      end
  end.

(** [.replace(/\n\n/g, '</p><p>')]. *)
Fixpoint replace_blank_line (skip : nat) (s : jsstring) : jsstring :=
  match s with
  | [] => []
  | a :: t =>
      match skip with
      | S k => replace_blank_line k t
      | O =>
          match t with
          | b :: _ =>
              if (a =? 10) && (b =? 10)
              then str "</p><p>" ++ replace_blank_line 1 t
              else a :: replace_blank_line 0 t
          | [] => [a]
          end
      end
  end.

(** [.*?] under the [s] flag followed by [lit]: how many code units
    stand before the first [lit]. *)
Fixpoint lazy_until (lit : jsstring) (s : jsstring) : option nat :=
  if starts_with lit s then Some O
  else match s with
       | [] => None
       | _ :: t => S <$> lazy_until lit t
       end.

(** One [<li>.*?</li>] at the head of [s]: its length. *)
Definition li_group_at (s : jsstring) : option nat :=
  if starts_with (str "<li>") s
  then (fun k => (4 + k + 5)%nat) <$> lazy_until (str "</li>") (drop 4 s)
  else None.

(** [html.replace(/(<li>.*?<\/li>)+/gs, '<ul>$&</ul>')]: [copy] counts
    the code units of the current group still to be copied, [opened]
    tells whether a [<ul>] is open; a group that starts where the last
    one ended continues the same match. *)
Fixpoint wrap_ul (copy : nat) (opened : bool) (s : jsstring) : jsstring :=
  match s with
  | [] => if opened then str "</ul>" else []
  | a :: t =>
      match copy with
      | S k => a :: wrap_ul k opened t
      | O =>
          match li_group_at s with
          | Some n =>
              (if opened then [] else str "<ul>") ++ a :: wrap_ul (n - 1) true t
          | None =>
              (if opened then str "</ul>" else []) ++ a :: wrap_ul 0 false t
          end
      end
  end.

(** *** [formatMessage] *)

(** The three escaping replacements, in the order of the source. *)
Definition escape_html (s : jsstring) : jsstring :=
  replace_char 62 (str "&gt;")
    (replace_char 60 (str "&lt;")
       (replace_char 38 (str "&amp;") s)).

(** The markdown replacements that follow them. *)
Definition markdown (s : jsstring) : jsstring :=
  let s := replace_strong 42 0 s in
  let s := replace_strong 95 0 s in
  let s := replace_em 42 0 s in
  let s := replace_em 95 0 s in
  let s := replace_li bullet_marker true 0 s in
  let s := replace_li number_marker true 0 s in
  let s := replace_blank_line 0 s in
  let s := replace_char 10 (str "<br>") s in
  let html := wrap_ul 0 false s in
  if starts_with (str "<") html then html
  else str "<p>" ++ html ++ str "</p>".

(** [text.replace] exists on strings only: any other argument throws. *)
Definition formatMessage (text : value) : result jsstring :=
  match text with
  | VStr s => Ok (markdown (escape_html s))
  | _ => Throw TypeError
  end.

(** The other branch of the conditional in [addMessage]. *)
Definition format_user (content : value) : result jsstring :=
  match content with
  | VStr s => Ok (str "<p>" ++ escape_html s ++ str "</p>")
  | _ => Throw TypeError
  end.

End Render.

(** ** The page: DOM state, platform, and the handler monad *)

Module Page.

Inductive role : Type := User | Assistant.

(** What a message element shows: markup assigned to [innerHTML], or a
    value assigned to [textContent]. *)
Inductive content : Type :=
| Html (h : jsstring)
| Text (v : value).

Record message : Type := Message {
  msg_role : role;
  msg_content : content;
  msg_time : jsstring
}.

(** Children of [#messages]. *)
Inductive node : Type :=
| MessageDiv (m : message)
| TypingIndicator.

Inductive voice_mode : Type := ChatMode | TextMode.

(** [fetch] requests.  A JSON body holds the value handed to
    [JSON.stringify]; a form body holds the one file field. *)
Inductive body : Type :=
| NoBody
| JsonBody (v : value)
| FormBody (field : jsstring) (blob : list N) (filename : jsstring).

Record request : Type := Request {
  url : jsstring;
  method : jsstring;
  req_body : body
}.

(** A response: its [ok] flag and what [response.json()] resolves to
    ([None] when it rejects). *)
Record response : Type := Response {
  ok : bool;
  json : option value
}.

Inductive fetch_outcome : Type :=
| Rejected
| Resolved (r : response).

Inductive ticker_view : Type :=
| TickerUntouched
| TickerItems (stocks : list value)
| TickerPlaceholder (text : jsstring).

(** The calls a handler makes, in the order it makes them. *)
Inductive event : Type :=
| EFetch (req : request)
| ESettled (n : nat)
| EAppend (m : message)
| EFocusInput
| ENotification (title : jsstring) (body : value) (icon tag : jsstring)
| EPlay (audio : value)
| ESpeak (text : value) (voice : option jsstring)
| EAlert (text : jsstring)
| ERecorderStart
| ERecorderStop
| ESetInterval (ms : N).

Record chat_dom : Type := ChatDom {
  input_value : jsstring;
  children : list node;
  typing_hidden : bool;
  welcome_hidden : bool;
  loading_hidden : bool
}.

(** The globals of the voice functions and the microphone stream of
    the session.  [recorder] is [mediaRecorder], holding the mode its
    [onstop] handler closed over. *)
Record voice_state : Type := VoiceState {
  is_recording : bool;
  recorder : option voice_mode;
  audio_chunks : list (list N);
  tracks_live : list bool;
  voice_status : jsstring;
  voice_modal_hidden : bool
}.

(** What the handlers read and never write. *)
Record env : Type := Env {
  hours : N;
  minutes : N;
  date_string : jsstring;
  time_string : jsstring;
  permission : jsstring;
  net : nat -> request -> fetch_outcome;
  microphone : option nat;
  playback_fails : value -> bool;
  speech_voices : option (list jsstring);
  has_ticker : bool
}.

Record world : Type := World {
  chat : chat_dom;
  voice : voice_state;
  ticker_content : ticker_view;
  storage : gmap jsstring jsstring;
  fetches : nat;
  log : list event;
  platform : env
}.

Definition set_chat (f : chat_dom -> chat_dom) (w : world) : world :=
  World (f (chat w)) (voice w) (ticker_content w) (storage w) (fetches w)
    (log w) (platform w).
Definition set_voice (f : voice_state -> voice_state) (w : world) : world :=
  World (chat w) (f (voice w)) (ticker_content w) (storage w) (fetches w)
    (log w) (platform w).
Definition set_ticker_content (v : ticker_view) (w : world) : world :=
  World (chat w) (voice w) v (storage w) (fetches w) (log w) (platform w).
Definition set_storage (f : gmap jsstring jsstring -> gmap jsstring jsstring)
    (w : world) : world :=
  World (chat w) (voice w) (ticker_content w) (f (storage w)) (fetches w)
    (log w) (platform w).
Definition set_fetches (f : nat -> nat) (w : world) : world :=
  World (chat w) (voice w) (ticker_content w) (storage w) (f (fetches w))
    (log w) (platform w).
Definition set_log (f : list event -> list event) (w : world) : world :=
  World (chat w) (voice w) (ticker_content w) (storage w) (fetches w)
    (f (log w)) (platform w).

Definition set_input_value (s : jsstring) (c : chat_dom) : chat_dom :=
  ChatDom s (children c) (typing_hidden c) (welcome_hidden c) (loading_hidden c).
Definition set_children (f : list node -> list node) (c : chat_dom) : chat_dom :=
  ChatDom (input_value c) (f (children c)) (typing_hidden c) (welcome_hidden c)
    (loading_hidden c).
Definition set_typing_hidden (b : bool) (c : chat_dom) : chat_dom :=
  ChatDom (input_value c) (children c) b (welcome_hidden c) (loading_hidden c).
Definition set_welcome_hidden (b : bool) (c : chat_dom) : chat_dom :=
  ChatDom (input_value c) (children c) (typing_hidden c) b (loading_hidden c).
Definition set_loading_hidden (b : bool) (c : chat_dom) : chat_dom :=
  ChatDom (input_value c) (children c) (typing_hidden c) (welcome_hidden c) b.

Definition set_is_recording (b : bool) (v : voice_state) : voice_state :=
  VoiceState b (recorder v) (audio_chunks v) (tracks_live v) (voice_status v)
    (voice_modal_hidden v).
Definition set_recorder (r : option voice_mode) (v : voice_state)
  : voice_state :=
  VoiceState (is_recording v) r (audio_chunks v) (tracks_live v)
    (voice_status v) (voice_modal_hidden v).
Definition set_audio_chunks (f : list (list N) -> list (list N))
    (v : voice_state) : voice_state :=
  VoiceState (is_recording v) (recorder v) (f (audio_chunks v)) (tracks_live v)
    (voice_status v) (voice_modal_hidden v).
Definition set_tracks_live (f : list bool -> list bool) (v : voice_state)
  : voice_state :=
  VoiceState (is_recording v) (recorder v) (audio_chunks v) (f (tracks_live v))
    (voice_status v) (voice_modal_hidden v).
Definition set_voice_status (s : jsstring) (v : voice_state) : voice_state :=
  VoiceState (is_recording v) (recorder v) (audio_chunks v) (tracks_live v) s
    (voice_modal_hidden v).
Definition set_voice_modal_hidden (b : bool) (v : voice_state) : voice_state :=
  VoiceState (is_recording v) (recorder v) (audio_chunks v) (tracks_live v)
    (voice_status v) b.

(** *** Handlers: state passing with exceptions

    A handler runs from a world to a result and a world; what it did
    before throwing stays done.  An [await] is answered by the
    platform part of the world. *)
Definition M (A : Type) : Type := world -> result A * world.

#[export] Instance M_ret : MRet M := fun A a w => (Ok a, w).
#[export] Instance M_bind : MBind M := fun A B f m w =>
  match m w with
  | (Ok a, w') => f a w'
  | (Throw e, w') => (Throw e, w')
  end.

Definition throw {A} (e : exn) : M A := fun w => (Throw e, w).
Definition lift {A} (r : result A) : M A := fun w => (r, w).
Definition gets {A} (f : world -> A) : M A := fun w => (Ok (f w), w).
Definition modify (f : world -> world) : M unit := fun w => (Ok tt, f w).
Definition emit (e : event) : M unit := modify (set_log (fun l => l ++ [e])).

Definition try_catch {A} (block : M A) (handler : exn -> M A) : M A :=
  fun w =>
    match block w with
    | (Ok a, w') => (Ok a, w')
    | (Throw e, w') => handler e w'
    end.

Definition try_catch_finally {A} (block : M A) (handler : exn -> M A)
    (finalizer : M unit) : M A :=
  fun w =>
    let (r, w') := try_catch block handler w in
    match finalizer w' with
    | (Ok _, w'') => (r, w'')
    | (Throw e, w'') => (Throw e, w'')
    end.

Fixpoint map_m {A B} (f : A -> M B) (l : list A) : M (list B) :=
  match l with
  | [] => mret []
  | a :: t => b ← f a; bs ← map_m f t; mret (b :: bs)
  end.

Fixpoint map_result {A B} (f : A -> result B) (l : list A) : result (list B) :=
  match l with
  | [] => Ok []
  | a :: t =>
      match f a with
      | Ok b => match map_result f t with
                | Ok bs => Ok (b :: bs)
                | Throw e => Throw e
                end
      | Throw e => Throw e
      end
  end.

(** *** [fetch] and [response.json()] *)

(** Calling [fetch] issues the request; the [n]-th request of the page
    is answered by [net n]. *)
Definition fetch_start (req : request) : M (nat * request) :=
  n ← gets fetches;
  modify (set_fetches S);;
  emit (EFetch req);;
  mret (n, req).

Definition outcome_of (p : nat * request) : M fetch_outcome :=
  o ← gets (fun w => net (platform w) p.1 p.2);
  emit (ESettled p.1);;
  mret o.

(** [await] on the promise of [fetch]. *)
Definition await_fetch (p : nat * request) : M response :=
  o ← outcome_of p;
  match o with
  | Rejected => throw NetworkError
  | Resolved r => mret r
  end.

Definition fetch (req : request) : M response :=
  p ← fetch_start req; await_fetch p.

(** [await response.json()]. *)
Definition json_of (r : response) : M value :=
  match json r with
  | Some v => mret v
  | None => throw SyntaxError
  end.

Definition get_request (u : jsstring) : request := Request u (str "GET") NoBody.
Definition post_json (u : jsstring) (v : value) : request :=
  Request u (str "POST") (JsonBody v).

(** *** Observations on a log *)

Definition appended (r : role) (l : list event) : list message :=
  omap (fun e => match e with
                 | EAppend m =>
                     match r, msg_role m with
                     | User, User | Assistant, Assistant => Some m
                     | _, _ => None
                     end
                 | _ => None
                 end) l.

Definition fetched (l : list event) : list request :=
  omap (fun e => match e with EFetch req => Some req | _ => None end) l.

Definition notifications (l : list event) : list event :=
  List.filter (fun e => match e with ENotification _ _ _ _ => true | _ => false end) l.

End Page.

(** ** The client with the ticker ([app.js], first variant) *)

Module App.
Import Page Render.

Definition is_typing (n : node) : bool :=
  match n with TypingIndicator => true | MessageDiv _ => false end.

(** [appendChild] of a node that is already in the tree moves it. *)
Definition showTyping : M unit :=
  modify (set_chat (set_children (fun ch =>
    List.filter (fun n => negb (is_typing n)) ch ++ [TypingIndicator])));;
  modify (set_chat (set_typing_hidden false)).

Definition hideTyping : M unit :=
  modify (set_chat (set_typing_hidden true)).

Definition addMessage (role : role) (content : value) : M unit :=
  modify (set_chat (set_welcome_hidden true));;
  time ← gets (fun w => time_string (platform w));
  formattedContent ← lift (match role with
                           | Assistant => formatMessage content
                           | User => format_user content
                           end);
  let messageDiv := Message role (Html formattedContent) time in
  modify (set_chat (set_children (fun ch => ch ++ [MessageDiv messageDiv])));;
  emit (EAppend messageDiv).

Definition chat_request (message : value) (is_voice : bool) : request :=
  post_json (str "/api/chat")
    (VObj [(str "message", message); (str "is_voice", VBool is_voice)]).

Definition sendMessage : M unit :=
  v ← gets (fun w => input_value (chat w));
  let message := trim v in
  if negb (truthy (VStr message)) then mret tt else
  modify (set_chat (set_input_value []));;
  addMessage User (VStr message);;
  showTyping;;
  try_catch
    (response ← fetch (chat_request (VStr message) false);
     data ← json_of response;
     hideTyping;;
     reply ← lift (get data (str "reply"));
     if truthy reply then addMessage Assistant reply else mret tt)
    (fun _ =>
       hideTyping;;
       addMessage Assistant
         (VStr (str "Sorry, I encountered an error. Please try again."))).

(** *** Voice *)

(** Decoding the hexadecimal audio, building the clip and awaiting
    [play()]: the platform decides whether this throws. *)
Definition play_audio (audio : value) : M unit :=
  emit (EPlay audio);;
  fails ← gets (fun w => playback_fails (platform w) audio);
  if fails : bool then throw TypeError else mret tt.

Definition preferred_voice (voices : list jsstring) : option jsstring :=
  List.find (fun name => includes name (str "Samantha")
                         || includes name (str "Google")
                         || includes name (str "Microsoft")) voices.

Definition useBrowserSpeech (text : value) : M unit :=
  synth ← gets (fun w => speech_voices (platform w));
  match synth with
  | Some voices => emit (ESpeak text (preferred_voice voices))
  | None => mret tt
  end.

Definition speakResponse (text : value) : M unit :=
  try_catch
    (response ← fetch (post_json (str "/api/voice/synthesize")
                         (VObj [(str "text", text)]));
     played ← (if ok response then
                 data ← json_of response;
                 audio ← lift (get data (str "audio"));
                 if truthy audio then play_audio audio;; mret true
                 else mret false
               else mret false);
     if played : bool then mret tt else useBrowserSpeech text)
    (fun _ => useBrowserSpeech text).

Definition processVoice (audioBlob : list N) (mode : voice_mode) : M unit :=
  showTyping;;
  try_catch
    (transcribeResponse ←
       fetch (Request (str "/api/voice/transcribe") (str "POST")
                (FormBody (str "audio") audioBlob (str "recording.webm")));
     (if ok transcribeResponse then mret tt
      else throw (Error (str "Transcription failed")));;
     data ← json_of transcribeResponse;
     text ← lift (get data (str "text"));
     (** [!text || text.trim() === ''] *)
     heard ← (if truthy text then
                match text with
                | VStr s => mret (truthy (VStr (trim s)))
                | _ => throw TypeError
                end
              else mret false);
     if negb heard then
       hideTyping;;
       addMessage Assistant
         (VStr (str "I didn't catch that. Please try speaking again."))
     else
       match mode with
       | TextMode =>
           modify (set_chat (set_input_value (to_string text)));;
           emit EFocusInput;;
           hideTyping
       | ChatMode =>
           hideTyping;;
           addMessage User text;;
           showTyping;;
           chatResponse ← fetch (chat_request text true);
           chat_data ← json_of chatResponse;
           reply ← lift (get chat_data (str "reply"));
           hideTyping;;
           addMessage Assistant reply;;
           speakResponse reply
       end)
    (fun _ =>
       hideTyping;;
       match mode with
       | TextMode =>
           addMessage Assistant
             (VStr (str "Voice service temporarily unavailable. Please type your message."))
       | ChatMode =>
           addMessage Assistant
             (VStr (str "Sorry, I had trouble with the voice service. Please try again or type your message."))
       end).

Definition listening_status (mode : voice_mode) : jsstring :=
  [55356; 57252] ++
  match mode with
  | ChatMode => str " Listening... Tap to stop"
  | TextMode => str " Speak your message... Tap to stop"
  end.

(** [startVoice]: [getUserMedia] gives a stream with some tracks, or
    rejects. *)
Definition startVoice (mode : voice_mode) : M unit :=
  mic ← gets (fun w => microphone (platform w));
  match mic with
  | Some tracks =>
      modify (set_voice (set_tracks_live (fun _ => replicate tracks true)));;
      modify (set_voice (set_recorder (Some mode)));;
      modify (set_voice (set_audio_chunks (fun _ => [])));;
      emit ERecorderStart;;
      modify (set_voice (set_is_recording true));;
      modify (set_voice (set_voice_modal_hidden false));;
      modify (set_voice (set_voice_status (listening_status mode)))
  | None =>
      emit (EAlert (str "Could not access microphone. Please check your browser permissions and try again."))
  end.

(** [mediaRecorder.ondataavailable] *)
Definition ondataavailable (data : list N) : M unit :=
  modify (set_voice (set_audio_chunks (fun chunks => chunks ++ [data]))).

Definition stopVoice : M unit :=
  v ← gets voice;
  match recorder v with
  | Some _ =>
      if is_recording v : bool then
        emit ERecorderStop;;
        modify (set_voice (set_is_recording false))
      else mret tt
  | None => mret tt
  end.

(** [mediaRecorder.onstop]; [new Blob(audioChunks)] is the
    concatenation of the chunks. *)
Definition onstop (mode : voice_mode) : M unit :=
  chunks ← gets (fun w => audio_chunks (voice w));
  let audioBlob := concat chunks in
  modify (set_voice (set_voice_status (str "Processing...")));;
  processVoice audioBlob mode;;
  modify (set_voice (set_tracks_live (List.map (fun _ => false))));;
  modify (set_voice (set_voice_modal_hidden true)).

(** *** Morning wisdom *)

Definition wisdom_key : jsstring := str "stockman_wisdom_date".

Definition checkMorningWisdom : M unit :=
  hour ← gets (fun w => hours (platform w));
  if (hour <? 7) || (9 <=? hour) then mret tt else
  today ← gets (fun w => date_string (platform w));
  lastShown ← gets (fun w => storage w !! wisdom_key);
  if bool_decide (lastShown = Some today) then mret tt else
  perm ← gets (fun w => permission (platform w));
  if negb (eqs perm (str "granted")) then mret tt else
  try_catch
    (response ← fetch (get_request (str "/api/morning-wisdom"));
     data ← json_of response;
     wisdom ← lift (get data (str "wisdom"));
     if truthy wisdom then
       emit (ENotification (str "Good Morning " ++ [9728; 65039]) wisdom
               (str "/icons/icon-192.png") (str "morning-wisdom"));;
       modify (set_storage (insert wisdom_key today))
     else mret tt)
    (fun _ => mret tt).

(** *** Stock ticker *)

Definition defaultTickers : list jsstring :=
  List.map str
    ["AAPL"; "MSFT"; "GOOGL"; "AMZN"; "NVDA"; "TSLA";
     "META"; "NFLX"; "AMD"; "INTC"; "CRM"; "ORCL";
     "JPM"; "V"; "MA"; "BAC";
     "JNJ"; "PFE"; "UNH";
     "XOM"; "CVX"]%string.

Definition quote_request (ticker : value) : request :=
  get_request (str "/api/stock/" ++ to_string ticker).

(** [fetch(...).then(res => res.json()).catch(() => null)], once the
    request is out. *)
Definition quote_data (p : nat * request) : M value :=
  o ← outcome_of p;
  mret match o with
       | Rejected => VNull
       | Resolved r => default VNull (json r)
       end.

Definition field (d : value) (k : jsstring) : value :=
  match get d k with Ok v => v | Throw _ => VUndefined end.

(** [data && data.price] *)
Definition has_price (d : value) : bool :=
  truthy d && truthy (field d (str "price")).

(** [data.change_pct || data.change_percent || 0] *)
Definition change_percent (d : value) : value :=
  if truthy (field d (str "change_pct")) then field d (str "change_pct")
  else if truthy (field d (str "change_percent"))
       then field d (str "change_percent")
       else VNum 0.

Definition is_number (v : value) : bool :=
  match v with VNum _ => true | _ => false end.

(** Building one item calls [toFixed] on the price and on the change,
    which only numbers have. *)
Definition renders (d : value) : bool :=
  is_number (field d (str "price")) && is_number (change_percent d).

(** The markup of the items is kept as the list of the stocks shown. *)
Definition updateTickerWithStocks (tickers : list value) : M unit :=
  try_catch
    (pending ← map_m (fun ticker => fetch_start (quote_request ticker)) tickers;
     stockData ← map_m quote_data pending;
     let priced := List.filter has_price stockData in
     (if forallb renders priced then mret tt else throw TypeError);;
     match priced with
     | _ :: _ => modify (set_ticker_content (TickerItems (priced ++ priced)))
     | [] =>
         modify (set_ticker_content
                   (TickerPlaceholder (str "No stock data available")))
     end)
    (fun _ =>
       modify (set_ticker_content
                 (TickerPlaceholder (str "Market data unavailable")))).

(** [list.map(s => s.ticker)] *)
Definition tickers_of (entries : value) : result (list value) :=
  match entries with
  | VArr items => map_result (fun s => get s (str "ticker")) items
  | _ => Throw TypeError
  end.

Definition loadTicker : M unit :=
  present ← gets (fun w => has_ticker (platform w));
  if negb present then mret tt else
  try_catch
    (p1 ← fetch_start (get_request (str "/api/portfolio"));
     p2 ← fetch_start (get_request (str "/api/watchlist"));
     portfolioRes ← await_fetch p1;
     watchlistRes ← await_fetch p2;
     portfolio_data ← json_of portfolioRes;
     portfolio ← lift (get portfolio_data (str "portfolio"));
     watchlist_data ← json_of watchlistRes;
     watchlist ← lift (get watchlist_data (str "watchlist"));
     from_portfolio ← lift (tickers_of portfolio);
     from_watchlist ← lift (tickers_of watchlist);
     let tickers :=
       set_of (List.map VStr defaultTickers ++ from_portfolio ++ from_watchlist) in
     updateTickerWithStocks tickers;;
     emit (ESetInterval 60000))
    (fun _ =>
       modify (set_ticker_content
                 (TickerPlaceholder (str "Market data unavailable")))).

End App.

(** ** The client with the briefing card ([app.js], third variant) *)

Module Briefing.
Import Page.

Definition showLoading : M unit :=
  modify (set_chat (set_loading_hidden false)).

Definition hideLoading : M unit :=
  modify (set_chat (set_loading_hidden true)).

(** [escapeHtml(content)] goes through [textContent]: the element
    shows the value as text, whatever the value. *)
Definition addMessage (role : role) (content : value) : M unit :=
  time ← gets (fun w => time_string (platform w));
  let messageDiv := Message role (Text content) time in
  modify (set_chat (set_children (fun ch => ch ++ [MessageDiv messageDiv])));;
  emit (EAppend messageDiv).

Definition chat_request (message : value) (is_voice : bool) : request :=
  post_json (str "/api/chat")
    (VObj [(str "message", message); (str "is_voice", VBool is_voice)]).

Definition sendMessage : M unit :=
  v ← gets (fun w => input_value (chat w));
  let message := trim v in
  if negb (truthy (VStr message)) then mret tt else
  modify (set_chat (set_input_value []));;
  addMessage User (VStr message);;
  showLoading;;
  try_catch_finally
    (response ← fetch (chat_request (VStr message) false);
     data ← json_of response;
     reply ← lift (get data (str "reply"));
     if truthy reply then addMessage Assistant reply else mret tt)
    (fun _ =>
       addMessage Assistant
         (VStr (str "Sorry, I encountered an error. Please try again.")))
    hideLoading.

(** Decoding the hexadecimal audio and building the clip: the platform
    decides whether this throws. *)
Definition play_audio (audio : value) : M unit :=
  emit (EPlay audio);;
  fails ← gets (fun w => playback_fails (platform w) audio);
  if fails : bool then throw TypeError else mret tt.

Definition speakResponse (text : value) : M unit :=
  try_catch
    (response ← fetch (post_json (str "/api/voice/synthesize")
                         (VObj [(str "text", text)]));
     data ← json_of response;
     audio ← lift (get data (str "audio"));
     if truthy audio then play_audio audio else mret tt)
    (fun _ => mret tt).

Definition processVoice (audioBlob : list N) (mode : voice_mode) : M unit :=
  showLoading;;
  try_catch_finally
    (transcribeResponse ←
       fetch (Request (str "/api/voice/transcribe") (str "POST")
                (FormBody (str "audio") audioBlob (str "recording.webm")));
     data ← json_of transcribeResponse;
     text ← lift (get data (str "text"));
     if negb (truthy text) then hideLoading
     else
       match mode with
       | TextMode =>
           modify (set_chat (set_input_value (to_string text)));;
           hideLoading
       | ChatMode =>
           addMessage User text;;
           chatResponse ← fetch (chat_request text true);
           chat_data ← json_of chatResponse;
           reply ← lift (get chat_data (str "reply"));
           addMessage Assistant reply;;
           speakResponse reply
       end)
    (fun _ =>
       addMessage Assistant
         (VStr (str "Sorry, I had trouble understanding that. Please try again.")))
    hideLoading.

End Briefing.

(** ** The service worker *)

Module ServiceWorker.

Definition CACHE_NAME : jsstring := str "stockman-v1".

Record request : Type := Request {
  method : jsstring;
  url : jsstring
}.

Record response : Type := Response {
  status : N;
  payload : jsstring
}.

(** A cache maps the URL of a stored request to its response; cache
    storage lists the named caches in the order they were created. *)
Definition cache_storage : Type := list (jsstring * gmap jsstring response).

Definition caches_keys (cs : cache_storage) : list jsstring := cs.*1.

Definition caches_delete (name : jsstring) (cs : cache_storage) : cache_storage :=
  List.filter (fun c => negb (eqs c.1 name)) cs.

(** [caches.open(name)] creates the cache when it is missing. *)
Definition caches_open (name : jsstring) (cs : cache_storage) : cache_storage :=
  if existsb (fun c => eqs c.1 name) cs then cs else cs ++ [(name, ∅)].

(** What a cache agrees to store.  [cache.put] and [cache.addAll]
    refuse a partial response (status 206): their promise rejects and
    the cache stays as it was.  A response is kept here as its status
    and its body, without headers, so the other response they refuse,
    one that says [Vary: *], is not among the responses of the model.
    The requests are the [GET] requests of the page and of the
    manifest, which a cache takes. *)
Definition storable (r : response) : bool := negb (status r =? 206).

(** [cache.put(request, response)] on the cache [name], once it has
    settled. *)
Definition cache_put (name : jsstring) (req : request) (r : response)
    (cs : cache_storage) : cache_storage :=
  if storable r
  then List.map (fun c => if eqs c.1 name then (c.1, <[url req := r]> c.2) else c) cs
  else cs.

(** [caches.match(request)]: the first cache that holds the request
    answers; [None] is the [undefined] the promise resolves to. *)
Fixpoint caches_match (req : request) (cs : cache_storage) : option response :=
  match cs with
  | [] => None
  | c :: rest =>
      match c.2 !! url req with
      | Some r => Some r
      | None => caches_match req rest
      end
  end.

(** What is shown by [showNotification(title, options)]. *)
Record notification : Type := Notification {
  title : value;
  body : value;
  icon : value;
  badge : value;
  vibrate : list N;
  data : value;
  actions : list (jsstring * jsstring);
  requireInteraction : bool;
  tag : jsstring
}.

Inductive event : Type :=
| CachesDelete (name : jsstring)
| CachesMatch (req : request)
| CachePut (cache : jsstring) (req : request) (r : response)
| NetworkFetch (req : request)
| ClientsClaim.

Record worker : Type := Worker {
  caches : cache_storage;
  shown : list notification;
  log : list event
}.

Definition emit (e : event) (s : worker) : worker :=
  Worker (caches s) (shown s) (log s ++ [e]).

Definition set_caches (f : cache_storage -> cache_storage) (s : worker) : worker :=
  Worker (f (caches s)) (shown s) (log s).

(** *** activate *)

Definition stale (cacheNames : list jsstring) : list jsstring :=
  List.filter (fun name => negb (eqs name CACHE_NAME)) cacheNames.

Definition delete_all (names : list jsstring) (s : worker) : worker :=
  fold_left (fun s name => set_caches (caches_delete name) (emit (CachesDelete name) s))
    names s.

Definition on_activate (s : worker) : worker :=
  let cacheNames := caches_keys (caches s) in
  delete_all (stale cacheNames) (emit ClientsClaim s).

(** *** fetch *)

(** What the handler does with a fetch event: it returns without
    [respondWith], leaving the request to the browser, or it hands
    [respondWith] a promise, which here always fulfils, with a
    response or with [undefined]. *)
Inductive handled : Type :=
| PassedThrough
| RespondWith (fulfilled : option response).

(** The browser's side of [respondWith]: a value that is not a
    response is a network error, and the [fetch] of the page rejects. *)
Inductive page_result : Type :=
| Delivered (r : response)
| FetchRejects.

Definition respondWith (fulfilled : option response) : page_result :=
  match fulfilled with
  | Some r => Delivered r
  | None => FetchRejects
  end.

(** [network req] is what [fetch(event.request)] settles to: a
    response, or [None] when it rejects.  On a response the handler
    starts [caches.open(CACHE_NAME).then(cache => cache.put(...))] and
    returns the response without waiting for it: what [respondWith]
    gets does not depend on the write, and a write that rejects is
    not noticed.  The worker given back is the one reached when that
    write has settled. *)
Definition on_fetch (network : request -> option response) (req : request)
    (s : worker) : handled * worker :=
  if negb (eqs (method req) (str "GET")) then (PassedThrough, s)
  else if includes (url req) (str "/api/") then (PassedThrough, s)
  else
    let s := emit (NetworkFetch req) s in
    match network req with
    | Some response =>
        (RespondWith (Some response),
         emit (CachePut CACHE_NAME req response)
           (set_caches (fun cs => cache_put CACHE_NAME req response
                                    (caches_open CACHE_NAME cs)) s))
    | None =>
        (RespondWith (caches_match req (caches s)), emit (CachesMatch req) s)
    end.

(** *** push *)

(** [event.data]: its text, and what [json()] returns ([None] when it
    throws). *)
Record push_message : Type := PushMessage {
  text : jsstring;
  json : option value
}.

Record descriptor : Type := Descriptor {
  d_title : value;
  d_body : value;
  d_icon : value;
  d_badge : value;
  d_data : value
}.

Definition default_descriptor : descriptor :=
  Descriptor (VStr (str "Stockman"))
    (VStr (str "You have a new update!"))
    (VStr (str "/icons/icon-192.png"))
    (VStr (str "/icons/icon-72.png"))
    (VObj [(str "url", VStr (str "/"))]).

(** [{ ...data, ...parsed }] as far as the five members read below go:
    an object overrides the members it has; a string or an array only
    adds index members, and other values add none. *)
Definition spread_over (d : descriptor) (parsed : value) : descriptor :=
  match parsed with
  | VObj fields =>
      let pick k old := default old (lookup_field k fields) in
      Descriptor (pick (str "title") (d_title d)) (pick (str "body") (d_body d))
        (pick (str "icon") (d_icon d)) (pick (str "badge") (d_badge d))
        (pick (str "data") (d_data d))
  | _ => d
  end.

Definition set_body (b : value) (d : descriptor) : descriptor :=
  Descriptor (d_title d) b (d_icon d) (d_badge d) (d_data d).

Definition push_descriptor (event_data : option push_message) : descriptor :=
  match event_data with
  | Some m =>
      match json m with
      | Some parsed => spread_over default_descriptor parsed
      | None => set_body (VStr (text m)) default_descriptor
      end
  | None => default_descriptor
  end.

Definition on_push (event_data : option push_message) (s : worker) : worker :=
  let data := push_descriptor event_data in
  let options :=
    Notification (d_title data) (d_body data) (d_icon data) (d_badge data)
      [100; 50; 100] (d_data data)
      [(str "open", str "Open Stockman"); (str "dismiss", str "Dismiss")]
      false (str "stockman-notification") in
  Worker (caches s) (shown s ++ [options]) (log s).

End ServiceWorker.

(** ** Concrete worlds *)

Module Examples.
Import Page.

Definition offline : nat -> request -> fetch_outcome := fun _ _ => Rejected.

(** Every request is answered with the same JSON body. *)
Definition answering (v : value) : nat -> request -> fetch_outcome :=
  fun _ _ => Resolved (Response true (Some v)).

(** A page at the given local time, notifications granted. *)
Definition env_at (h m : N) (network : nat -> request -> fetch_outcome) : env :=
  Env h m (str "Mon Nov 02 2026") (str "07:30 AM") (str "granted") network
    (Some 1%nat) (fun _ => false) (Some [str "Google US English"]) true.

Definition page (input : jsstring) (e : env) : world :=
  World (ChatDom input [] true false true)
    (VoiceState false None [] [] [] true)
    TickerUntouched ∅ 0 [] e.

Definition typed_hello (network : nat -> request -> fetch_outcome) : world :=
  page (str "  hello ") (env_at 7 30 network).

Definition wisdom_body : value :=
  VObj [(str "wisdom", VStr (str "Buy low, sell high."))].

(** A chat answer whose reply is there and is empty. *)
Definition empty_reply : value := VObj [(str "reply", VStr [])].

(** A page opened at 06:59 and one opened at 07:30. *)
Definition early_page : world := page [] (env_at 6 59 (answering wisdom_body)).
Definition morning_page : world := page [] (env_at 7 30 (answering wisdom_body)).

(** A backend whose portfolio and watchlist share a symbol with each
    other and with the defaults. *)
Definition holding (ticker : string) : value :=
  VObj [(str "ticker", VStr (str ticker))].

Definition portfolio_body : value :=
  VObj [(str "portfolio", VArr [holding "AAPL"; holding "IBM"])].

Definition watchlist_body : value :=
  VObj [(str "watchlist", VArr [holding "IBM"; holding "SHOP"])].

Definition stock_backend : nat -> request -> fetch_outcome := fun _ req =>
  if eqs (url req) (str "/api/portfolio")
  then Resolved (Response true (Some portfolio_body))
  else if eqs (url req) (str "/api/watchlist")
       then Resolved (Response true (Some watchlist_body))
       else Resolved (Response true (Some (VObj [(str "price", VNum 100)]))).

Definition ticker_page : world := page [] (env_at 10 0 stock_backend).

(** A backend that lists the symbol [1] as a number in the portfolio
    and as a string in the watchlist. *)
Definition mixed_backend : nat -> request -> fetch_outcome := fun _ req =>
  if eqs (url req) (str "/api/portfolio")
  then Resolved (Response true
                   (Some (VObj [(str "portfolio",
                                 VArr [VObj [(str "ticker", VNum 1)]])])))
  else if eqs (url req) (str "/api/watchlist")
       then Resolved (Response true
                        (Some (VObj [(str "watchlist", VArr [holding "1"])])))
       else Resolved (Response true (Some (VObj [(str "price", VNum 100)]))).

Definition mixed_page : world := page [] (env_at 10 0 mixed_backend).

(** A backend that transcribes every recording as [hello] and answers
    the chat request with an empty object. *)
Definition voice_backend : nat -> request -> fetch_outcome := fun _ req =>
  if eqs (url req) (str "/api/voice/transcribe")
  then Resolved (Response true (Some (VObj [(str "text", VStr (str "hello"))])))
  else Resolved (Response true (Some (VObj []))).

Definition voice_page : world := page [] (env_at 10 0 voice_backend).

(** A request for an asset that no cache holds. *)
Definition stylesheet : ServiceWorker.request :=
  ServiceWorker.Request (str "GET") (str "/css/styles.css").

Definition home_page : ServiceWorker.response :=
  ServiceWorker.Response 200 (str "<html>").

(** A worker with a stale cache, the current one and a foreign one. *)
Definition three_caches : ServiceWorker.worker :=
  ServiceWorker.Worker
    [(str "stockman-v0", {[ str "/" := home_page ]});
     (ServiceWorker.CACHE_NAME, {[ str "/index.html" := home_page ]});
     (str "images", ∅)]
    [] [].

Definition fresh_worker : ServiceWorker.worker := ServiceWorker.Worker [] [] [].

Definition no_network : ServiceWorker.request -> option ServiceWorker.response :=
  fun _ => None.

Definition chat_post : ServiceWorker.request :=
  ServiceWorker.Request (str "POST") (str "/api/chat").

Definition plain_push : ServiceWorker.push_message :=
  ServiceWorker.PushMessage (str "AAPL is up 3%") None.

End Examples.

(** ** The service worker: install and notification click *)

Module Lifecycle.
Import ServiceWorker.

Definition ASSETS_TO_CACHE : list jsstring :=
  List.map str ["/"; "/index.html"; "/css/styles.css"; "/js/app.js";
                "/manifest.json"]%string.

Definition asset_request (u : jsstring) : request := Request (str "GET") u.

(** A response that [cache.addAll] accepts: status 200 to 299, and
    not the partial response that no cache stores. *)
Definition ok_status (r : response) : bool :=
  (200 <=? status r) && (status r <=? 299) && storable r.

(** [cache.addAll(urls)] fetches every URL and stores nothing unless
    every fetch gave an accepted response. *)
Fixpoint fetch_assets (network : request -> option response)
    (urls : list jsstring) : option (list (request * response)) :=
  match urls with
  | [] => Some []
  | u :: rest =>
      match network (asset_request u) with
      | Some r =>
          if ok_status r
          then cons (asset_request u, r) <$> fetch_assets network rest
          else None
      | None => None
      end
  end.

Definition put_all (name : jsstring) (entries : list (request * response))
    (s : worker) : worker :=
  fold_left (fun s e =>
               emit (CachePut name e.1 e.2)
                 (set_caches (cache_put name e.1 e.2) s))
    entries s.

(** What became of the install event: whether the promise given to
    [waitUntil] fulfilled, whether [skipWaiting] was called, and the
    worker afterwards. *)
Record installation : Type := Installation {
  fulfilled : bool;
  skipped_waiting : bool;
  installed : worker
}.

Definition on_install (network : request -> option response) (s : worker)
  : installation :=
  let s := set_caches (caches_open CACHE_NAME) s in
  let s := fold_left (fun s u => emit (NetworkFetch (asset_request u)) s)
             ASSETS_TO_CACHE s in
  match fetch_assets network ASSETS_TO_CACHE with
  | Some entries => Installation true true (put_all CACHE_NAME entries s)
  | None => Installation false true s
  end.

(** An open window of the application. *)
Record client : Type := Client {
  client_url : jsstring;
  has_focus_method : bool
}.

Inductive click_effect : Type :=
| CloseNotification
| FocusClient (index : nat)
| OpenWindow (url : value).

(** [event.notification.data?.url || '/'] *)
Definition urlToOpen (data : value) : value :=
  let u := match data with
           | VUndefined | VNull => VUndefined
           | _ => match get data (str "url") with
                  | Ok v => v
                  | Throw _ => VUndefined
                  end
           end in
  if truthy u then u else VStr (str "/").

(** The loop over [clientList]: the index of the first client whose URL
    includes the origin and that can be focused. *)
Fixpoint first_own_client (origin : jsstring) (clientList : list client)
    (index : nat) : option nat :=
  match clientList with
  | [] => None
  | c :: rest =>
      if includes (client_url c) origin && has_focus_method c
      then Some index
      else first_own_client origin rest (S index)
  end.

Definition on_notificationclick (action : jsstring) (data : value)
    (origin : jsstring) (clientList : list client) : list click_effect :=
  CloseNotification ::
  if eqs action (str "dismiss") then []
  else
    match first_own_client origin clientList 0 with
    | Some i => [FocusClient i]
    | None => [OpenWindow (urlToOpen data)]
    end.

End Lifecycle.

(** ** The client: saving the profile *)

Module Profile.
Import Page.

(** [saveProfile], given the value of the name field. *)
Definition saveProfile (userName : jsstring) : M unit :=
  let name := trim userName in
  if negb (truthy (VStr name)) then mret tt else
  try_catch
    (_ ← fetch (post_json (str "/api/settings") (VObj [(str "name", VStr name)]));
     emit (EAlert (str "Profile saved!")))
    (fun _ => mret tt).

End Profile.

(** ** What the statements observe

    Readings of a log, the requests and texts of the source that the
    statements name, and the two frame conditions used for the voice
    handlers. *)

Import Page Render.

(** The events a handler added to the log of [w]. *)
Definition since (w w' : world) : list event :=
  drop (length (log w)) (log w').

(** What the two awaits on a request yield together: the parsed body, or
    nothing when the request or the parsing fails. *)
Definition answered (o : fetch_outcome) : option value :=
  match o with
  | Rejected => None
  | Resolved r => json r
  end.

(** The text [sendMessage] shows when the chat request fails. *)
Definition apology : jsstring :=
  str "Sorry, I encountered an error. Please try again.".

(** How each variant shows a string in a message of a given role. *)
Definition App_shows (r : role) (s : jsstring) : content :=
  match r with
  | User => Html (str "<p>" ++ escape_html s ++ str "</p>")
  | Assistant => Html (markdown (escape_html s))
  end.

Definition Briefing_shows (r : role) (s : jsstring) : content := Text (VStr s).

(** What [data.reply] gives inside the guarded block of [sendMessage]:
    nothing when the request is rejected, when the body is not JSON,
    or when the body is [null], whose members cannot be read; these
    are the ways the call fails. *)
Definition reply_of (o : fetch_outcome) : option value :=
  match answered o with
  | Some data =>
      match get data (str "reply") with
      | Ok v => Some v
      | Throw _ => None
      end
  | None => None
  end.

(** What each variant shows for a truthy reply: the ticker variant
    renders a string and, since rendering anything else throws inside
    the guarded block, shows the apology for any other value; the
    briefing variant shows the value as text. *)
Definition App_reply (v : value) : content :=
  match v with
  | VStr s => App_shows Assistant s
  | _ => App_shows Assistant apology
  end.

Definition Briefing_reply (v : value) : content := Text v.

(** What [send] adds to the log of [w]: the user entry, then the chat
    request and its settling, then at most one assistant entry: the
    apology when the call fails, one entry when the reply is truthy,
    none when the reply is missing or falsy. *)
Definition user_entry_then_reply (send : M unit)
    (shows : role -> jsstring -> content) (shows_reply : value -> content)
    (w : world) : Prop :=
  let message := trim (input_value (chat w)) in
  let req := App.chat_request (VStr message) false in
  let o := net (platform w) (fetches w) req in
  let now := time_string (platform w) in
  (send w).1 = Ok tt /\
  exists tail,
    since w (send w).2
    = EAppend (Message User (shows User message) now)
        :: EFetch req :: ESettled (fetches w) :: tail /\
    fetched tail = [] /\
    appended User tail = [] /\
    (length (appended Assistant tail) <= 1)%nat /\
    (reply_of o = None ->
     appended Assistant tail = [Message Assistant (shows Assistant apology) now]) /\
    (forall v,
       reply_of o = Some v -> truthy v = true ->
       appended Assistant tail = [Message Assistant (shows_reply v) now]) /\
    (forall v,
       reply_of o = Some v -> truthy v = false ->
       appended Assistant tail = []).

(** The message of the rendering scenario. *)
Definition buy_aapl : value := VStr (str "**Buy** AAPL now").

(** What escaping makes of one code unit of the input. *)
Definition entity (c : N) : jsstring :=
  if c =? 38 then str "&amp;"
  else if c =? 60 then str "&lt;"
  else if c =? 62 then str "&gt;"
  else [c].

(** How often [caches.delete(name)] is called in a log. *)
Definition deletions (name : jsstring) (l : list ServiceWorker.event) : nat :=
  length (List.filter (fun e => match e with
                                | ServiceWorker.CachesDelete n => eqs n name
                                | _ => false
                                end) l).

(** The reads and writes of cache storage in a log. *)
Definition cache_events (l : list ServiceWorker.event) : list ServiceWorker.event :=
  List.filter (fun e => match e with
                        | ServiceWorker.CachesMatch _
                        | ServiceWorker.CachePut _ _ _ => true
                        | _ => false
                        end) l.

Definition wisdom_request : request := get_request (str "/api/morning-wisdom").

Definition wisdom_notification (wisdom : value) : event :=
  ENotification (str "Good Morning " ++ [9728; 65039]) wisdom
    (str "/icons/icon-192.png") (str "morning-wisdom").

(** A computation is calm when it leaves the voice state alone and only
    adds to the log; it returns when it never throws. *)
Definition calm_step (w w' : world) : Prop :=
  voice w' = voice w /\ exists l, log w' = log w ++ l.

Definition calm {A} (m : M A) : Prop := forall w, calm_step w (m w).2.

Definition returns {A} (m : M A) : Prop := forall w, exists a, (m w).1 = Ok a.

(** The request [processVoice] starts with. *)
Definition transcribe_request (audioBlob : list N) : request :=
  Request (str "/api/voice/transcribe") (str "POST")
    (FormBody (str "audio") audioBlob (str "recording.webm")).

(** Values that [Set] compares by content: everything but arrays and
    objects. *)
Definition is_primitive (v : value) : bool :=
  match v with
  | VArr _ | VObj _ => false
  | _ => true
  end.

(** The values a stock symbol is expected to be. *)
Definition is_string (v : value) : bool :=
  match v with VStr _ => true | _ => false end.

Definition portfolio_request : request := get_request (str "/api/portfolio").

Definition watchlist_request : request := get_request (str "/api/watchlist").

(** The text the ticker variant shows when voice chat fails. *)
Definition voice_apology : jsstring :=
  str "Sorry, I had trouble with the voice service. Please try again or type your message.".

(** ** What the further properties observe

    More readings of a log and of the page, and the texts and requests
    of the source that the further properties name. *)

Definition put_entry (cs : ServiceWorker.cache_storage)
    (e : ServiceWorker.request * ServiceWorker.response)
  : ServiceWorker.cache_storage :=
  ServiceWorker.cache_put ServiceWorker.CACHE_NAME e.1 e.2 cs.

(** The messages among the children of [#messages], and the messages a
    log says were appended. *)
Definition messages_of (children : list node) : list message :=
  omap (fun n => match n with MessageDiv m => Some m | TypingIndicator => None end)
    children.

Definition appended_all (l : list event) : list message :=
  omap (fun e => match e with EAppend m => Some m | _ => None end) l.

(** From [w] to [w'] the log was extended, and the message list was
    extended by exactly the messages the new part of the log names. *)
Definition grows (w w' : world) : Prop :=
  exists l,
    log w' = log w ++ l /\
    messages_of (children (chat w'))
    = messages_of (children (chat w)) ++ appended_all l.

Definition growing {A} (m : M A) : Prop := forall w, grows w (m w).2.

Definition didnt_catch : jsstring :=
  str "I didn't catch that. Please try speaking again.".

Definition text_apology : jsstring :=
  str "Voice service temporarily unavailable. Please type your message.".

Definition voice_failure_text (mode : voice_mode) : jsstring :=
  match mode with
  | TextMode => text_apology
  | ChatMode => voice_apology
  end.

Definition assistant_says (s : jsstring) (w : world) : message :=
  Message Assistant (Html (markdown (escape_html s))) (time_string (platform w)).

Definition synthesize_request (text : value) : request :=
  post_json (str "/api/voice/synthesize") (VObj [(str "text", text)]).

(** The audio the synthesis request delivered, if it delivered any. *)
Definition remote_audio (o : fetch_outcome) : option value :=
  match o with
  | Rejected => None
  | Resolved r =>
      if ok r then
        match json r with
        | Some data =>
            match get data (str "audio") with
            | Ok audio => if truthy audio then Some audio else None
            | Throw _ => None
            end
        | None => None
        end
      else None
  end.

Definition spoken (l : list event) : list (value * option jsstring) :=
  omap (fun e => match e with ESpeak t v => Some (t, v) | _ => None end) l.

Definition played (l : list event) : list value :=
  omap (fun e => match e with EPlay a => Some a | _ => None end) l.

Definition names_preferred (name : jsstring) : bool :=
  includes name (str "Samantha") || includes name (str "Google")
  || includes name (str "Microsoft").

(** The symbols a list request delivered under [key], if it delivered a
    list. *)
Definition listed (key : jsstring) (o : fetch_outcome) : option (list value) :=
  match answered o with
  | Some d =>
      match get d key with
      | Ok v => match App.tickers_of v with
                | Ok l => Some l
                | Throw _ => None
                end
      | Throw _ => None
      end
  | None => None
  end.

Definition intervals (l : list event) : list N :=
  omap (fun e => match e with ESetInterval ms => Some ms | _ => None end) l.

Definition unavailable : ticker_view :=
  TickerPlaceholder (str "Market data unavailable").

(** The requests of a batch, numbered as [fetch_start] numbers them. *)
Fixpoint numbered (n : nat) (reqs : list request) : list (nat * request) :=
  match reqs with
  | [] => []
  | r :: rest => (n, r) :: numbered (S n) rest
  end.

(** What the promise of one quote resolves to. *)
Definition quote_answer (w : world) (p : nat * request) : value :=
  match net (platform w) p.1 p.2 with
  | Rejected => VNull
  | Resolved r => default VNull (json r)
  end.

Definition issue (w : world) (r : request) : world :=
  set_log (fun l => l ++ [EFetch r]) (set_fetches S w).

Definition settle_one (w : world) (p : nat * request) : world :=
  set_log (fun l => l ++ [ESettled p.1]) w.

(** What the ticker shows for the answers of the quote requests. *)
Definition ticker_for (stockData : list value) : ticker_view :=
  let priced := List.filter App.has_price stockData in
  if forallb App.renders priced then
    match priced with
    | [] => TickerPlaceholder (str "No stock data available")
    | _ => TickerItems (priced ++ priced)
    end
  else unavailable.

(** What the quote request of the [i]-th symbol resolves to, after the
    [.then(res => res.json()).catch(() => null)] of the source. *)
Definition quote_of (w : world) (i : nat) (ticker : value) : value :=
  quote_answer w ((fetches w + i)%nat, App.quote_request ticker).

Definition quotes (w : world) (tickers : list value) : list value :=
  imap (quote_of w) tickers.

Definition no_data : ticker_view :=
  TickerPlaceholder (str "No stock data available").

(** The recorder hands over the chunks one by one. *)
Definition record (chunks : list (list N)) (w : world) : world :=
  fold_left (fun w data => (App.ondataavailable data w).2) chunks w.

(** Code units that no replacement of [formatMessage] looks for. *)
Definition plain (c : N) : bool :=
  negb ((c =? 38) || (c =? 60) || (c =? 62) || (c =? 42) || (c =? 95)
        || is_line_terminator c).

(** A first code unit that can open a list item. *)
Definition opens_item (s : jsstring) : bool :=
  match s with
  | c :: _ => (c =? 45) || (c =? 8226) || is_digit c
  | [] => false
  end.

Definition alerts (l : list event) : list jsstring :=
  omap (fun e => match e with EAlert text => Some text | _ => None end) l.

Definition settings_request (name : jsstring) : request :=
  post_json (str "/api/settings") (VObj [(str "name", VStr name)]).

(** * Properties *)

Import Page Render.

Arguments str : simpl never.
Arguments trim : simpl never.
Arguments escape_html : simpl never.
Arguments markdown : simpl never.
Arguments to_string : simpl never.
Arguments set_of : simpl never.
Arguments App.defaultTickers : simpl never.

(** Running a handler: unfold the monad and the handlers, and compute. *)
Ltac run :=
  repeat (unfold mbind, mret, M_bind, M_ret, throw, lift, gets, modify, emit,
            try_catch, try_catch_finally,
            fetch, fetch_start, await_fetch, outcome_of, json_of,
            App.sendMessage, App.addMessage, App.showTyping, App.hideTyping,
            Briefing.sendMessage, Briefing.addMessage, Briefing.showLoading,
            Briefing.hideLoading;
          cbn).

Lemma since_app (w w' : world) (l : list event) :
  log w' = log w ++ l -> since w w' = l.
Proof. intros E. unfold since. rewrite E. apply drop_app_length. Qed.

Ltac since_log :=
  match goal with
  | |- context [since ?w ?w'] =>
      erewrite (since_app w w') by (cbn; rewrite <- ?app_assoc; reflexivity)
  end.

(** Closes the cases of a handler once its log is known. *)
Ltac settle :=
  repeat split; intros; simplify_eq; try done; try lia;
  repeat match goal with
    | H : ?x = _, H' : ?x = _ |- _ => rewrite H in H'
    end;
  simplify_eq; cbn in *; simplify_eq; try done; try congruence;
  try match goal with H : ?s <> [] |- _ => by destruct s end.

(** ** The definitions at work *)

Example trim_strips_both_ends : trim (str "  hello ") = str "hello".
Proof. vm_compute; reflexivity. Qed.

Example formatMessage_list :
  formatMessage (VStr (str "Picks:" ++ [10] ++ str "- *AAPL*" ++ [10] ++ str "2. __MSFT__"))
  = Ok (str "<p>Picks:<br><ul><li><em>AAPL</em></li></ul><br><ul><li><strong>MSFT</strong></li></ul></p>").
Proof. vm_compute; reflexivity. Qed.

Example formatMessage_escapes_first :
  formatMessage (VStr (str "<b>**x**</b> & more"))
  = Ok (str "<p>&lt;b&gt;<strong>x</strong>&lt;/b&gt; &amp; more</p>").
Proof. vm_compute; reflexivity. Qed.

Example formatMessage_rejects_undefined :
  formatMessage VUndefined = Throw TypeError.
Proof. reflexivity. Qed.

Example set_of_keeps_first_occurrences :
  set_of [VStr (str "AAPL"); VStr (str "IBM"); VStr (str "AAPL"); VNum 1; VNum 1]
  = [VStr (str "AAPL"); VStr (str "IBM"); VNum 1].
Proof. vm_compute; reflexivity. Qed.

(** A successful network fetch is answered from the network and stored
    in the current cache, which is created on the way. *)
Example on_fetch_network_first :
  ServiceWorker.on_fetch (fun _ => Some Examples.home_page) Examples.stylesheet
    Examples.fresh_worker
  = (ServiceWorker.RespondWith (Some Examples.home_page),
     ServiceWorker.Worker
       [(ServiceWorker.CACHE_NAME, {[ str "/css/styles.css" := Examples.home_page ]})]
       []
       [ServiceWorker.NetworkFetch Examples.stylesheet;
        ServiceWorker.CachePut ServiceWorker.CACHE_NAME Examples.stylesheet
          Examples.home_page]).
Proof. vm_compute; reflexivity. Qed.

(** ** Chat: [sendMessage] *)

Lemma App_sendMessage_entries (w : world) :
  trim (input_value (chat w)) <> [] ->
  user_entry_then_reply App.sendMessage App_shows App_reply w.
Proof.
  intros Hm. unfold user_entry_then_reply, reply_of, answered, App_reply,
    App_shows, apology.
  destruct (trim (input_value (chat w))) as [|c0 s0] eqn:Ht; [done|].
  run. rewrite Ht. run.
  destruct (net _ _ _) as [|[okf [data|]]] eqn:Hn; run;
    [| destruct (get data (str "reply")) as [reply|e] eqn:Hg; run;
       [destruct (truthy reply) eqn:Hr; run;
        [destruct reply; run|]|] |].
  all: split; [done|]; since_log; eexists; (split; [reflexivity|]); cbn.
  all: settle.
Qed.

Lemma Briefing_sendMessage_entries (w : world) :
  trim (input_value (chat w)) <> [] ->
  user_entry_then_reply Briefing.sendMessage Briefing_shows Briefing_reply w.
Proof.
  intros Hm. unfold user_entry_then_reply, reply_of, answered, Briefing_reply,
    Briefing_shows, apology.
  destruct (trim (input_value (chat w))) as [|c0 s0] eqn:Ht; [done|].
  run. rewrite Ht. run.
  destruct (net _ _ _) as [|[okf [data|]]] eqn:Hn; run;
    [| destruct (get data (str "reply")) as [reply|e] eqn:Hg; run;
       [destruct (truthy reply) eqn:Hr; run|] |].
  all: split; [done|]; since_log; eexists; (split; [reflexivity|]); cbn.
  all: settle.
Qed.

(** C1, as the code has it: for every input whose trimmed text is not
    empty, [sendMessage] (in both variants) appends exactly one user
    entry before the chat request is issued and, once the request has
    settled, at most one assistant entry: exactly one, the fixed
    apology, when the call fails (the request is rejected, or its body
    is not JSON or is [null]); exactly one when it succeeds with a
    truthy [reply] (the reply; in the ticker variant the apology when
    the reply is not a string); none when the [reply] is missing or
    falsy. *)
Theorem sendMessage_entries (w : world) :
  trim (input_value (chat w)) <> [] ->
  user_entry_then_reply App.sendMessage App_shows App_reply w /\
  user_entry_then_reply Briefing.sendMessage Briefing_shows Briefing_reply w.
Proof.
  intros Hm. split.
  - by apply App_sendMessage_entries.
  - by apply Briefing_sendMessage_entries.
Qed.

Lemma sendMessage_entries_witness :
  trim (input_value (chat (Examples.typed_hello Examples.offline))) <> [] /\
  user_entry_then_reply App.sendMessage App_shows App_reply
    (Examples.typed_hello Examples.offline) /\
  user_entry_then_reply Briefing.sendMessage Briefing_shows Briefing_reply
    (Examples.typed_hello Examples.offline).
Proof.
  split; [vm_compute; discriminate|].
  apply (sendMessage_entries (Examples.typed_hello Examples.offline)).
  vm_compute; discriminate.
Defined.

(** C1 as stated fails: when the chat request is rejected, the assistant
    entries added are not zero (the apology is appended); and a reply
    that is present but empty gives no assistant entry at all. *)
Lemma sendMessage_failure_appends_apology :
  appended Assistant
    (since (Examples.typed_hello Examples.offline)
       (App.sendMessage (Examples.typed_hello Examples.offline)).2)
  = [Message Assistant (App_shows Assistant apology) (str "07:30 AM")] /\
  appended Assistant
    (since (Examples.typed_hello Examples.offline)
       (Briefing.sendMessage (Examples.typed_hello Examples.offline)).2)
  = [Message Assistant (Briefing_shows Assistant apology) (str "07:30 AM")] /\
  appended Assistant
    (since (Examples.typed_hello (Examples.answering Examples.empty_reply))
       (App.sendMessage
          (Examples.typed_hello (Examples.answering Examples.empty_reply))).2)
  = [] /\
  appended Assistant
    (since (Examples.typed_hello (Examples.answering Examples.empty_reply))
       (Briefing.sendMessage
          (Examples.typed_hello (Examples.answering Examples.empty_reply))).2)
  = [].
Proof. repeat split; vm_compute; reflexivity. Qed.

(** ** Rendering: [formatMessage] and [addMessage] *)

Lemma replace_char_elem (c : N) (by_ s : jsstring) (x : N) :
  x ∈ replace_char c by_ s -> x ∈ by_ \/ (x ∈ s /\ x <> c).
Proof.
  unfold replace_char. intros H.
  apply list_elem_of_In, in_flat_map in H as (y & Hy & Hx).
  apply list_elem_of_In in Hy. destruct (N.eqb_spec y c) as [->|Hne].
  - left. by apply list_elem_of_In.
  - right. by destruct Hx as [<-|[]].
Qed.

(** After the three escaping replacements no angle bracket is left. *)
Lemma escape_html_no_angle (s : jsstring) :
  (60 ∉ escape_html s) /\ (62 ∉ escape_html s).
Proof.
  unfold escape_html. split; intros H.
  - apply replace_char_elem in H as [H|[H _]].
    { vm_compute in H. by repeat (apply elem_of_cons in H as [?|H]; [done|];
                                  try apply elem_of_nil in H). }
    apply replace_char_elem in H as [H|[_ H]]; [|done].
    vm_compute in H. by repeat (apply elem_of_cons in H as [?|H]; [done|];
                                try apply elem_of_nil in H).
  - apply replace_char_elem in H as [H|[_ H]]; [|done].
    vm_compute in H. by repeat (apply elem_of_cons in H as [?|H]; [done|];
                                try apply elem_of_nil in H).
Qed.

Lemma replace_char_app (c : N) (by_ s t : jsstring) :
  replace_char c by_ (s ++ t) = replace_char c by_ s ++ replace_char c by_ t.
Proof. unfold replace_char. apply flat_map_app. Qed.

Lemma escape_html_app (s t : jsstring) :
  escape_html (s ++ t) = escape_html s ++ escape_html t.
Proof. unfold escape_html. by rewrite !replace_char_app. Qed.

(** The three replacements together escape every code unit of the
    input once: the ampersands that the later replacements bring in
    are not escaped again. *)
Lemma escape_html_entities (s : jsstring) :
  escape_html s = List.flat_map entity s.
Proof.
  induction s as [|a s IH]; [done|].
  change (a :: s) with ([a] ++ s). rewrite escape_html_app, IH. cbn [List.flat_map app].
  f_equal. unfold entity, escape_html, replace_char. cbn [List.flat_map app].
  destruct (N.eqb_spec a 38) as [->|H38]; [vm_compute; reflexivity|].
  rewrite app_nil_r. cbn [List.flat_map app].
  destruct (N.eqb_spec a 60) as [->|H60]; [vm_compute; reflexivity|].
  rewrite app_nil_r. cbn [List.flat_map app].
  destruct (N.eqb_spec a 62) as [->|H62]; [vm_compute; reflexivity|].
  done.
Qed.

(** C2, the code at the input of the claim: the assistant message
    ["**Buy** AAPL now"] is appended as [<strong>Buy</strong> AAPL now]
    with no paragraph around it, which is not what the claim says.
    [formatMessage] wraps in a paragraph only markup that does not
    start with [<], and the bold that opens the text makes it start
    so: the same words with the bold further on are wrapped, and a
    text with a leading bold and a blank line gets the closing tag of
    a paragraph that was never opened.  The rest is as claimed: the
    user message with the same text is the literal text in a
    paragraph, without bold; and in both roles every [&], [<] and [>]
    of the input is escaped, once, before any markdown replacement,
    so that no angle bracket of the input is left. *)
Theorem addMessage_leading_bold_unwrapped (w : world) :
  since w (App.addMessage Assistant buy_aapl w).2
  = [EAppend (Message Assistant (Html (str "<strong>Buy</strong> AAPL now"))
                (time_string (platform w)))] /\
  formatMessage buy_aapl <> Ok (str "<p><strong>Buy</strong> AAPL now</p>") /\
  formatMessage (VStr (str "Now **Buy** AAPL"))
  = Ok (str "<p>Now <strong>Buy</strong> AAPL</p>") /\
  formatMessage (VStr (str "**A**" ++ [10; 10] ++ str "B"))
  = Ok (str "<strong>A</strong></p><p>B") /\
  since w (App.addMessage User buy_aapl w).2
  = [EAppend (Message User (Html (str "<p>**Buy** AAPL now</p>"))
                (time_string (platform w)))] /\
  formatMessage (VStr (str "<b>**x**</b> & co"))
  = Ok (str "<p>&lt;b&gt;<strong>x</strong>&lt;/b&gt; &amp; co</p>") /\
  format_user (VStr (str "<b>**x**</b> & co"))
  = Ok (str "<p>&lt;b&gt;**x**&lt;/b&gt; &amp; co</p>") /\
  (forall s : jsstring,
     formatMessage (VStr s) = Ok (markdown (List.flat_map entity s)) /\
     format_user (VStr s)
     = Ok (str "<p>" ++ List.flat_map entity s ++ str "</p>") /\
     (60 ∉ List.flat_map entity s) /\ (62 ∉ List.flat_map entity s)).
Proof.
  assert (Ea : markdown (escape_html (str "**Buy** AAPL now"))
               = str "<strong>Buy</strong> AAPL now") by (vm_compute; reflexivity).
  assert (Eu : escape_html (str "**Buy** AAPL now") = str "**Buy** AAPL now")
    by (vm_compute; reflexivity).
  split; [|split; [|split; [|split; [|split; [|split; [|split]]]]]].
  - run. rewrite Ea. by since_log.
  - intros H. vm_compute in H. discriminate.
  - vm_compute; reflexivity.
  - vm_compute; reflexivity.
  - run. rewrite Eu. by since_log.
  - vm_compute; reflexivity.
  - vm_compute; reflexivity.
  - intros s. unfold formatMessage, format_user.
    rewrite <- escape_html_entities. repeat split; apply escape_html_no_angle.
Qed.

(** ** Service worker *)

Section ServiceWorkerProperties.
Import ServiceWorker.

Lemma eqs_true (a b : jsstring) : eqs a b = true <-> a = b.
Proof. unfold eqs. apply bool_decide_eq_true. Qed.

Lemma eqs_false (a b : jsstring) : eqs a b = false <-> a <> b.
Proof. unfold eqs. apply bool_decide_eq_false. Qed.

Lemma delete_all_log (names : list jsstring) (s : worker) :
  ServiceWorker.log (delete_all names s)
  = ServiceWorker.log s ++ List.map CachesDelete names.
Proof.
  unfold delete_all. revert s.
  induction names as [|n names IH]; intros s; cbn.
  - by rewrite app_nil_r.
  - rewrite IH. cbn. by rewrite <- app_assoc.
Qed.

Lemma delete_all_caches (names : list jsstring) (s : worker) :
  caches (delete_all names s)
  = List.filter (fun c => negb (existsb (eqs c.1) names)) (caches s).
Proof.
  unfold delete_all. revert s.
  induction names as [|n names IH]; intros s; cbn.
  - induction (caches s) as [|c cs IHc]; cbn; [done|]. by rewrite <- IHc.
  - rewrite IH. cbn. unfold caches_delete.
    induction (caches s) as [|c cs IHc]; cbn; [done|].
    destruct (eqs c.1 n); cbn; [done|].
    destruct (existsb (eqs c.1) names); cbn; by rewrite IHc.
Qed.

Lemma deletions_map (name : jsstring) (names : list jsstring) :
  deletions name (List.map CachesDelete names)
  = length (List.filter (fun n => eqs n name) names).
Proof.
  unfold deletions. induction names as [|n names IH]; cbn; [done|].
  destruct (eqs n name); cbn; by rewrite IH.
Qed.

Lemma count_absent (name : jsstring) (names : list jsstring) :
  name ∉ names -> length (List.filter (fun n => eqs n name) names) = 0%nat.
Proof.
  induction names as [|n names IH]; cbn; [done|].
  intros Hn. apply not_elem_of_cons in Hn as [Hne Hn].
  destruct (eqs n name) eqn:E; [apply eqs_true in E; congruence|]. auto.
Qed.

Lemma count_once (name : jsstring) (names : list jsstring) :
  NoDup names -> name ∈ names ->
  length (List.filter (fun n => eqs n name) names) = 1%nat.
Proof.
  induction 1 as [|n names Hn Hnd IH]; intros Hin.
  - by apply elem_of_nil in Hin.
  - cbn. destruct (eqs n name) eqn:E.
    + apply eqs_true in E as ->. cbn. by rewrite count_absent.
    + apply eqs_false in E. apply elem_of_cons in Hin as [->|Hin]; [done|]. auto.
Qed.

Lemma stale_elem (name : jsstring) (names : list jsstring) :
  name ∈ stale names <-> name ∈ names /\ name <> CACHE_NAME.
Proof.
  unfold stale. rewrite !list_elem_of_In, filter_In, negb_true_iff, eqs_false.
  done.
Qed.

(** C6: for every set of cache names found at activation, the handler
    calls [caches.delete] exactly once for each name other than
    [CACHE_NAME] and never for [CACHE_NAME]; afterwards cache storage
    holds the cache of the current version, as it was, and nothing
    else. *)
Theorem activate_deletes_stale_caches (s : worker) :
  NoDup (caches_keys (caches s)) ->
  (forall name, name ∈ caches_keys (caches s) ->
     deletions name (drop (length (ServiceWorker.log s))
                       (ServiceWorker.log (on_activate s)))
     = if bool_decide (name = CACHE_NAME) then 0%nat else 1%nat) /\
  deletions CACHE_NAME (ServiceWorker.log (on_activate s))
  = deletions CACHE_NAME (ServiceWorker.log s) /\
  caches (on_activate s)
  = List.filter (fun c => eqs c.1 CACHE_NAME) (caches s).
Proof.
  intros Hnd. unfold on_activate.
  rewrite delete_all_log, delete_all_caches. cbn.
  split; [|split].
  - intros name Hin. rewrite <- app_assoc, drop_app_length.
    change (deletions name (List.map CachesDelete (stale (caches_keys (caches s))))
            = if bool_decide (name = CACHE_NAME) then 0%nat else 1%nat).
    rewrite deletions_map. case_bool_decide as Hc.
    + apply count_absent. rewrite stale_elem. tauto.
    + apply count_once; [by apply NoDup_ListNoDup, List.NoDup_filter, NoDup_ListNoDup|]. by rewrite stale_elem.
  - unfold deletions. rewrite <- app_assoc, !List.filter_app, !length_app. cbn.
    fold (deletions CACHE_NAME (List.map CachesDelete (stale (caches_keys (caches s))))).
    rewrite deletions_map, count_absent; [lia|]. rewrite stale_elem. tauto.
  - apply List.filter_ext_in. intros c Hc.
    destruct (eqs c.1 CACHE_NAME) eqn:E.
    + apply eqs_true in E. apply negb_true_iff, not_true_iff_false.
      intros Hex. apply existsb_exists in Hex as (n & Hn & Hcn).
      apply eqs_true in Hcn. subst n. apply list_elem_of_In, stale_elem in Hn.
      tauto.
    + apply eqs_false in E. apply negb_false_iff, existsb_exists.
      exists c.1. split; [|by apply eqs_true].
      apply list_elem_of_In, stale_elem. split; [|done].
      apply list_elem_of_fmap. exists c. split; [done|]. by apply list_elem_of_In.
Qed.

Lemma activate_deletes_stale_caches_witness :
  NoDup (caches_keys (caches Examples.three_caches)) /\
  caches (on_activate Examples.three_caches)
  = List.filter (fun c => eqs c.1 CACHE_NAME) (caches Examples.three_caches).
Proof.
  assert (H : NoDup (caches_keys (caches Examples.three_caches)))
    by (apply (bool_decide_unpack _); vm_compute; exact I).
  split; [exact H|].
  exact (proj2 (proj2 (activate_deletes_stale_caches Examples.three_caches H))).
Defined.

(** C5: a request whose method is not GET, or whose URL contains
    [/api/], is passed through: the handler returns without
    [respondWith], reads no cache and writes none, and leaves the
    worker, its cache storage included, as it was. *)
Theorem fetch_passes_through (network : request -> option response)
    (req : request) (s : worker) :
  method req <> str "GET" \/ includes (url req) (str "/api/") = true ->
  on_fetch network req s = (PassedThrough, s).
Proof.
  intros [Hm|Hu]; unfold on_fetch.
  - apply eqs_false in Hm. by rewrite Hm.
  - rewrite Hu. by destruct (negb _).
Qed.

Lemma fetch_passes_through_witness :
  (method Examples.chat_post <> str "GET"
   \/ includes (url Examples.chat_post) (str "/api/") = true) /\
  on_fetch Examples.no_network Examples.chat_post Examples.three_caches
  = (PassedThrough, Examples.three_caches).
Proof.
  split; [right; vm_compute; reflexivity|].
  apply (fetch_passes_through Examples.no_network Examples.chat_post
           Examples.three_caches).
  right; vm_compute; reflexivity.
Defined.

Lemma caches_match_none (req : request) (cs : cache_storage) :
  (forall c, c ∈ cs -> c.2 !! url req = None) -> caches_match req cs = None.
Proof.
  induction cs as [|c cs IH]; intros H; cbn; [done|].
  rewrite (H c) by (apply elem_of_cons; by left).
  apply IH. intros c' Hc'. apply H. apply elem_of_cons. by right.
Qed.

(** C3: for every GET request outside [/api/], when the network
    fetch fails the handler looks the request up in cache storage and
    answers with what it finds, touching no cache; when no cache holds
    the request the promise given to [respondWith] carries no
    response, so the fetch of the page rejects. *)
Theorem fetch_falls_back_to_cache (network : request -> option response)
    (req : request) (s : worker) :
  method req = str "GET" ->
  includes (url req) (str "/api/") = false ->
  network req = None ->
  let (answer, s') := on_fetch network req s in
  answer = RespondWith (caches_match req (caches s)) /\
  cache_events (drop (length (ServiceWorker.log s)) (ServiceWorker.log s'))
  = [CachesMatch req] /\
  caches s' = caches s /\
  ((forall c, c ∈ caches s -> c.2 !! url req = None) ->
   answer = RespondWith None /\ respondWith None = FetchRejects).
Proof.
  intros Hm Hu Hn. unfold on_fetch.
  apply eqs_true in Hm. rewrite Hm, Hu, Hn. cbn.
  split; [done|split; [|split; [done|]]].
  - by rewrite <- app_assoc, drop_app_length.
  - intros Hnone. by rewrite caches_match_none.
Qed.

Lemma fetch_falls_back_to_cache_witness :
  let (answer, s') :=
    on_fetch Examples.no_network Examples.stylesheet Examples.three_caches in
  answer = RespondWith None /\ respondWith None = FetchRejects.
Proof.
  pose proof (fetch_falls_back_to_cache Examples.no_network Examples.stylesheet
                Examples.three_caches eq_refl eq_refl eq_refl) as H.
  destruct (on_fetch _ _ _) as [answer s'].
  destruct H as (_ & _ & _ & H). apply H.
  intros c Hc. unfold Examples.three_caches in Hc. cbn in Hc.
  repeat (apply elem_of_cons in Hc as [->|Hc]; [vm_compute; reflexivity|]).
  by apply elem_of_nil in Hc.
Defined.

(** C4: when the payload of a push event does not parse, the
    notification shown has the raw payload text as its body and the
    defaults for its title, icon, badge and deep-link data. *)
Theorem push_unparsed_payload (m : push_message) (s : worker) :
  json m = None ->
  exists n,
    shown (on_push (Some m) s) = shown s ++ [n] /\
    body n = VStr (text m) /\
    title n = VStr (str "Stockman") /\
    icon n = VStr (str "/icons/icon-192.png") /\
    badge n = VStr (str "/icons/icon-72.png") /\
    data n = VObj [(str "url", VStr (str "/"))] /\
    title n = d_title default_descriptor /\
    icon n = d_icon default_descriptor /\
    badge n = d_badge default_descriptor /\
    data n = d_data default_descriptor.
Proof.
  intros Hj. unfold on_push, push_descriptor. rewrite Hj. cbn.
  eexists. split; [reflexivity|]. cbn. repeat split.
Qed.

Lemma push_unparsed_payload_witness :
  json Examples.plain_push = None /\
  exists n,
    shown (on_push (Some Examples.plain_push) Examples.fresh_worker) = [n] /\
    body n = VStr (str "AAPL is up 3%").
Proof.
  split; [reflexivity|].
  destruct (push_unparsed_payload Examples.plain_push Examples.fresh_worker eq_refl)
    as (n & Hs & Hb & _).
  exists n. split; [exact Hs | exact Hb].
Defined.

End ServiceWorkerProperties.

(** ** Morning wisdom *)

(** C7: before 07:00 and from 09:00 on, [checkMorningWisdom] does
    nothing at all (no fetch, no notification, no write).  Between 07:00
    and 09:00, with notifications granted and no entry for today in
    local storage, it fetches the wisdom endpoint once; when the answer
    carries a truthy [wisdom] (a non-empty string is one) it shows
    exactly one notification with it and stores today's date, and
    otherwise shows none. *)
Theorem checkMorningWisdom_window (w : world) :
  (hours (platform w) < 7 \/ 9 <= hours (platform w) ->
   App.checkMorningWisdom w = (Ok tt, w)) /\
  (7 <= hours (platform w) < 9 ->
   permission (platform w) = str "granted" ->
   storage w !! App.wisdom_key <> Some (date_string (platform w)) ->
   let w' := (App.checkMorningWisdom w).2 in
   (App.checkMorningWisdom w).1 = Ok tt /\
   fetched (since w w') = [wisdom_request] /\
   (forall data wisdom,
      answered (net (platform w) (fetches w) wisdom_request) = Some data ->
      get data (str "wisdom") = Ok wisdom ->
      truthy wisdom = true ->
      notifications (since w w') = [wisdom_notification wisdom] /\
      storage w' = <[App.wisdom_key := date_string (platform w)]> (storage w)) /\
   (forall data wisdom,
      answered (net (platform w) (fetches w) wisdom_request) = Some data ->
      get data (str "wisdom") = Ok wisdom ->
      truthy wisdom = false ->
      notifications (since w w') = [] /\ storage w' = storage w)).
Proof.
  split.
  - intros Hh. unfold App.checkMorningWisdom. run.
    assert (E : (hours (platform w) <? 7) || (9 <=? hours (platform w)) = true).
    { apply orb_true_iff. rewrite N.ltb_lt, N.leb_le. lia. }
    by rewrite E.
  - intros [H7 H9] Hp Hs. unfold App.checkMorningWisdom, wisdom_request. run.
    assert (E : (hours (platform w) <? 7) || (9 <=? hours (platform w)) = false).
    { apply orb_false_iff. rewrite N.ltb_ge, N.leb_gt. lia. }
    rewrite E. run. rewrite bool_decide_eq_false_2 by done. run.
    rewrite Hp, (proj2 (eqs_true _ _) eq_refl). run.
    destruct (net _ _ _) as [|[okf [data|]]] eqn:Hn; run;
      [| destruct (get data (str "wisdom")) as [wisdom|e] eqn:Hg; run;
         [destruct (truthy wisdom) eqn:Hr; run|] |].
    all: split; [done|]; since_log; cbn.
    all: settle.
Qed.

Lemma checkMorningWisdom_window_witness :
  App.checkMorningWisdom Examples.early_page = (Ok tt, Examples.early_page) /\
  notifications
    (since Examples.morning_page (App.checkMorningWisdom Examples.morning_page).2)
  = [wisdom_notification (VStr (str "Buy low, sell high."))] /\
  storage (App.checkMorningWisdom Examples.morning_page).2
  = <[App.wisdom_key := date_string (platform Examples.morning_page)]>
      (storage Examples.morning_page).
Proof.
  split.
  - apply (proj1 (checkMorningWisdom_window Examples.early_page)).
    left. reflexivity.
  - assert (H7 : 7 <= hours (platform Examples.morning_page) < 9)
      by (split; [vm_compute; discriminate | reflexivity]).
    assert (Hs : storage Examples.morning_page !! App.wisdom_key
                 <> Some (date_string (platform Examples.morning_page)))
      by (vm_compute; discriminate).
    exact (proj1 (proj2 (proj2
             (proj2 (checkMorningWisdom_window Examples.morning_page)
                H7 eq_refl Hs)))
             Examples.wisdom_body (VStr (str "Buy low, sell high."))
             eq_refl eq_refl eq_refl).
Defined.

(** ** Voice: [processVoice] and the [onstop] handler *)

Lemma calm_step_refl (w : world) : calm_step w w.
Proof. split; [done|]. exists []. by rewrite app_nil_r. Qed.

Lemma calm_step_trans (w1 w2 w3 : world) :
  calm_step w1 w2 -> calm_step w2 w3 -> calm_step w1 w3.
Proof.
  intros [Hv1 [l1 Hl1]] [Hv2 [l2 Hl2]]. split; [congruence|].
  exists (l1 ++ l2). by rewrite Hl2, Hl1, app_assoc.
Qed.

Lemma calm_bind {A B} (m : M A) (k : A -> M B) :
  calm m -> (forall a, calm (k a)) -> calm (m ≫= k).
Proof.
  intros Hm Hk w. unfold mbind, M_bind. specialize (Hm w).
  destruct (m w) as [[a|e] w1]; cbn in *; [|done].
  eapply calm_step_trans; [exact Hm | apply Hk].
Qed.

Lemma calm_try_catch {A} (block : M A) (handler : exn -> M A) :
  calm block -> (forall e, calm (handler e)) -> calm (try_catch block handler).
Proof.
  intros Hb Hh w. unfold try_catch. specialize (Hb w).
  destruct (block w) as [[a|e] w1]; cbn in *; [done|].
  eapply calm_step_trans; [exact Hb | apply Hh].
Qed.

Lemma calm_mret {A} (a : A) : calm (mret a).
Proof. intros w. apply calm_step_refl. Qed.

Lemma calm_throw {A} (e : exn) : calm (throw (A:=A) e).
Proof. intros w. apply calm_step_refl. Qed.

Lemma calm_lift {A} (r : result A) : calm (lift r).
Proof. intros w. apply calm_step_refl. Qed.

Lemma calm_gets {A} (f : world -> A) : calm (gets f).
Proof. intros w. apply calm_step_refl. Qed.

Lemma calm_modify_chat (f : chat_dom -> chat_dom) : calm (modify (set_chat f)).
Proof. intros w. split; [done|]. exists []. cbn. by rewrite app_nil_r. Qed.

Lemma calm_modify_fetches (f : nat -> nat) : calm (modify (set_fetches f)).
Proof. intros w. split; [done|]. exists []. cbn. by rewrite app_nil_r. Qed.

Lemma calm_emit (e : event) : calm (emit e).
Proof. intros w. split; [done|]. by exists [e]. Qed.

Create HintDb calm.

(** Goes through a handler, one construct at a time. *)
Ltac calm_steps :=
  repeat first
    [ apply calm_bind; [|intros ?]
    | apply calm_try_catch; [|intros ?]
    | apply calm_mret | apply calm_throw | apply calm_lift | apply calm_gets
    | apply calm_emit | apply calm_modify_chat | apply calm_modify_fetches
    | solve [auto with calm nocore]
    | match goal with
      | |- calm (match ?x with _ => _ end) => destruct x
      end ].

Lemma calm_fetch (req : request) : calm (fetch req).
Proof. unfold fetch, fetch_start, await_fetch, outcome_of. calm_steps. Qed.

Lemma calm_json_of (r : response) : calm (json_of r).
Proof. unfold json_of. calm_steps. Qed.

Lemma calm_showTyping : calm App.showTyping.
Proof. unfold App.showTyping. calm_steps. Qed.

Lemma calm_hideTyping : calm App.hideTyping.
Proof. unfold App.hideTyping. calm_steps. Qed.

Lemma calm_addMessage (r : role) (content : value) : calm (App.addMessage r content).
Proof. unfold App.addMessage. calm_steps. Qed.

Lemma calm_useBrowserSpeech (text : value) : calm (App.useBrowserSpeech text).
Proof. unfold App.useBrowserSpeech. calm_steps. Qed.

Lemma calm_play_audio (audio : value) : calm (App.play_audio audio).
Proof. unfold App.play_audio. calm_steps. Qed.

#[local] Hint Resolve calm_fetch calm_json_of calm_showTyping calm_hideTyping
  calm_addMessage calm_useBrowserSpeech calm_play_audio : calm.

Lemma calm_speakResponse (text : value) : calm (App.speakResponse text).
Proof. unfold App.speakResponse. calm_steps. Qed.

#[local] Hint Resolve calm_speakResponse : calm.

(** The body and the handler of [processVoice] are calm. *)
Lemma calm_processVoice (audioBlob : list N) (mode : voice_mode) :
  calm (App.processVoice audioBlob mode).
Proof. unfold App.processVoice. calm_steps. Qed.


Lemma returns_bind {A B} (m : M A) (k : A -> M B) :
  returns m -> (forall a, returns (k a)) -> returns (m ≫= k).
Proof.
  intros Hm Hk w. unfold mbind, M_bind. destruct (Hm w) as [a Ha].
  destruct (m w) as [r w1]; cbn in *; subst r. apply Hk.
Qed.

Lemma returns_try_catch {A} (block : M A) (handler : exn -> M A) :
  (forall e, returns (handler e)) -> returns (try_catch block handler).
Proof.
  intros Hh w. unfold try_catch.
  destruct (block w) as [[a|e] w1]; cbn; [by exists a | apply Hh].
Qed.

Lemma returns_modify (f : world -> world) : returns (modify f).
Proof. intros w. by exists tt. Qed.

(** Rendering a string never throws, so showing one always returns. *)
Lemma returns_addMessage_string (r : role) (s : jsstring) :
  returns (App.addMessage r (VStr s)).
Proof. intros w. exists tt. by destruct r. Qed.

Lemma returns_processVoice (audioBlob : list N) (mode : voice_mode) :
  returns (App.processVoice audioBlob mode).
Proof.
  unfold App.processVoice, App.showTyping, App.hideTyping.
  repeat first [ apply returns_bind; [|intros ?]
               | apply returns_modify
               | apply returns_try_catch; intros ? ].
  destruct mode; apply returns_addMessage_string.
Qed.

(** A guarded block that starts with a fetch logs that fetch first. *)
Lemma try_catch_fetch_first {A} (req : request) (k : response -> M A)
    (handler : exn -> M A) (w : world) :
  (forall r, calm (k r)) -> (forall e, calm (handler e)) ->
  exists l, log (try_catch (fetch req ≫= k) handler w).2 = log w ++ EFetch req :: l.
Proof.
  intros Hk Hh. unfold try_catch, fetch. run.
  destruct (net _ _ _) as [|r]; run.
  - destruct (Hh NetworkError
                (set_log (fun l => l ++ [ESettled (fetches w)])
                   (set_log (fun l => l ++ [EFetch req]) (set_fetches S w))))
      as [_ [l Hl]].
    exists (ESettled (fetches w) :: l). rewrite Hl. cbn.
    by rewrite <- !app_assoc.
  - pose proof (Hk r
                  (set_log (fun l => l ++ [ESettled (fetches w)])
                     (set_log (fun l => l ++ [EFetch req]) (set_fetches S w))))
      as [_ [l Hl]].
    destruct (k r _) as [[a|e] w1]; cbn in *.
    + exists (ESettled (fetches w) :: l). rewrite Hl. by rewrite <- !app_assoc.
    + destruct (Hh e w1) as [_ [l' Hl']].
      exists (ESettled (fetches w) :: l ++ l'). rewrite Hl', Hl.
      by rewrite <- !app_assoc.
Qed.

Lemma processVoice_transcribes_first (audioBlob : list N) (mode : voice_mode)
    (w : world) :
  exists l,
    log (App.processVoice audioBlob mode w).2
    = log w ++ EFetch (transcribe_request audioBlob) :: l.
Proof.
  unfold App.processVoice.
  change ((App.showTyping ≫= ?k) w) with (k tt (App.showTyping w).2).
  change (log w) with (log (App.showTyping w).2).
  apply try_catch_fetch_first; intros; calm_steps.
Qed.

(** C8: whatever becomes of the transcription and of the chat request
    (success, blank transcript, rejected or malformed answers, failing
    playback), the [onstop] handler returns, having sent the
    concatenation of the recorded chunks as one audio file and having
    stopped every track of the microphone stream. *)
Theorem onstop_releases_microphone (mode : voice_mode) (w : world) :
  exists w' tail,
    App.onstop mode w = (Ok tt, w') /\
    since w w'
    = EFetch (transcribe_request (concat (audio_chunks (voice w)))) :: tail /\
    length (tracks_live (voice w')) = length (tracks_live (voice w)) /\
    Forall (fun live => live = false) (tracks_live (voice w')).
Proof.
  unfold App.onstop. run.
  set (w1 := set_voice _ w).
  set (blob := concat (audio_chunks (voice w))).
  destruct (returns_processVoice blob mode w1) as [[] Hr].
  destruct (calm_processVoice blob mode w1) as [Hv _].
  destruct (processVoice_transcribes_first blob mode w1) as [l Hl].
  destruct (App.processVoice blob mode w1) as [r w2]; cbn in *. subst r.
  eexists _, l. split; [reflexivity|]. cbn. rewrite Hv. cbn.
  split; [by apply since_app|].
  split; [by rewrite length_map|].
  apply Forall_forall. intros live Hin.
  by apply list_elem_of_In, in_map_iff in Hin as (? & <- & _).
Qed.

(** ** Ticker: the symbols of [loadTicker] *)

Lemma same_value_zero_eq (a b : value) :
  is_primitive a = true -> (same_value_zero a b = true <-> a = b).
Proof.
  destruct a, b; cbn; try done; intros _.
  all: try (split; [done | intros; simplify_eq]).
  - rewrite bool_decide_eq_true. split; congruence.
  - rewrite Z.eqb_eq. split; congruence.
  - unfold eqs. rewrite bool_decide_eq_true. split; congruence.
Qed.

Lemma existsb_same_value_zero (v : value) (seen : list value) :
  is_primitive v = true ->
  (existsb (same_value_zero v) seen = true <-> v ∈ seen).
Proof.
  intros Hp. rewrite existsb_exists, list_elem_of_In. split.
  - intros (x & Hx & E). by apply same_value_zero_eq in E as <-.
  - intros Hin. exists v. split; [done|]. by apply same_value_zero_eq.
Qed.

Lemma fold_set_add (items seen : list value) :
  Forall (fun v => is_primitive v = true) items ->
  NoDup seen ->
  NoDup (fold_left set_add items seen) /\
  (forall v, v ∈ fold_left set_add items seen <-> v ∈ seen \/ v ∈ items).
Proof.
  intros Hp. revert seen.
  induction Hp as [|x items Hx Hp IH]; intros seen Hnd; cbn.
  - split; [done|]. intros v. rewrite elem_of_nil. tauto.
  - unfold set_add at 2 4.
    destruct (existsb (same_value_zero x) seen) eqn:E.
    + apply existsb_same_value_zero in E; [|done].
      destruct (IH seen Hnd) as [H1 H2]. split; [done|].
      intros v. rewrite H2, elem_of_cons. split; [tauto|].
      intros [?|[->|?]]; tauto.
    + assert (Hnot : x ∉ seen).
      { intros Hin. apply existsb_same_value_zero in Hin; [congruence|done]. }
      destruct (IH (seen ++ [x])) as [H1 H2].
      { apply NoDup_app. split; [done|]. split; [|apply NoDup_singleton].
        intros y Hy Hy'. apply list_elem_of_singleton in Hy'. by subst y. }
      split; [done|]. intros v.
      rewrite H2, elem_of_app, list_elem_of_singleton, elem_of_cons. tauto.
Qed.

(** Over primitive values [Set] removes every duplicate and keeps every
    value. *)
Lemma set_of_distinct (items : list value) :
  Forall (fun v => is_primitive v = true) items ->
  NoDup (set_of items) /\ (forall v, v ∈ set_of items <-> v ∈ items).
Proof.
  intros Hp. destruct (fold_set_add items [] Hp (NoDup_nil_2)) as [H1 H2].
  split; [done|]. intros v. unfold set_of. rewrite H2, elem_of_nil. tauto.
Qed.

Lemma bind_ok {A B} (m : M A) (k : A -> M B) (w w1 : world) (a : A) :
  m w = (Ok a, w1) -> (m ≫= k) w = k a w1.
Proof. intros E. unfold mbind, M_bind. by rewrite E. Qed.

Lemma fetched_app (l1 l2 : list event) :
  fetched (l1 ++ l2) = fetched l1 ++ fetched l2.
Proof. apply omap_app. Qed.

Lemma fetched_requests (reqs : list request) :
  fetched (List.map EFetch reqs) = reqs.
Proof. induction reqs as [|r reqs IH]; [done|]. cbn. f_equal. exact IH. Qed.

(** [tickers.map(ticker => fetch(...))] issues the requests in order. *)
Lemma map_m_fetch_start (f : value -> request) (tickers : list value) (w : world) :
  exists pending w',
    map_m (fun ticker => fetch_start (f ticker)) tickers w = (Ok pending, w') /\
    log w' = log w ++ List.map EFetch (List.map f tickers).
Proof.
  revert w. induction tickers as [|t tickers IH]; intros w; cbn [map_m List.map].
  - exists [], w. split; [done|]. by rewrite app_nil_r.
  - destruct (IH (set_log (fun l => l ++ [EFetch (f t)]) (set_fetches S w)))
      as (pending & w' & E & Hl).
    exists ((fetches w, f t) :: pending), w'. split.
    + erewrite bind_ok by reflexivity. erewrite bind_ok by exact E. done.
    + rewrite Hl. cbn. by rewrite <- app_assoc.
Qed.

(** Awaiting the answers issues nothing. *)
Lemma map_m_quote_data (pending : list (nat * request)) (w : world) :
  exists stockData w' l,
    map_m App.quote_data pending w = (Ok stockData, w') /\
    log w' = log w ++ l /\ fetched l = [].
Proof.
  revert w. induction pending as [|p pending IH]; intros w; cbn [map_m].
  - exists [], w, []. split; [done|]. by rewrite app_nil_r.
  - destruct (IH (set_log (fun l => l ++ [ESettled p.1]) w))
      as (stockData & w' & l & E & Hl & Hf).
    eexists (_ :: stockData), w', (ESettled p.1 :: l). split; [|split].
    + erewrite bind_ok by reflexivity. erewrite bind_ok by exact E. done.
    + rewrite Hl. cbn. by rewrite <- app_assoc.
    + done.
Qed.

Lemma updateTickerWithStocks_fetches (tickers : list value) (w : world) :
  exists w' l,
    App.updateTickerWithStocks tickers w = (Ok tt, w') /\
    log w' = log w ++ List.map EFetch (List.map App.quote_request tickers) ++ l /\
    fetched l = [].
Proof.
  destruct (map_m_fetch_start App.quote_request tickers w)
    as (pending & w1 & E1 & Hl1).
  destruct (map_m_quote_data pending w1) as (stockData & w2 & l & E2 & Hl2 & Hf).
  unfold App.updateTickerWithStocks, try_catch.
  erewrite bind_ok by exact E1. erewrite bind_ok by exact E2.
  assert (Hlog : log w2 = log w
                   ++ List.map EFetch (List.map App.quote_request tickers) ++ l)
    by (by rewrite Hl2, Hl1, <- app_assoc).
  destruct (forallb App.renders (List.filter App.has_price stockData));
    [destruct (List.filter App.has_price stockData)|]; run.
  all: by eexists _, l.
Qed.

Lemma NoDup_map_inj_on {A B} (f : A -> B) (l : list A) :
  (forall x y, x ∈ l -> y ∈ l -> f x = f y -> x = y) ->
  NoDup l -> NoDup (List.map f l).
Proof.
  intros Hinj Hnd. induction Hnd as [|x l Hx Hnd IH]; cbn; [constructor|].
  constructor.
  - intros Hin. apply list_elem_of_In, in_map_iff in Hin as (y & E & Hy).
    apply list_elem_of_In in Hy.
    assert (y = x) as -> by
      (apply Hinj; [apply elem_of_cons; by right|apply elem_of_cons; by left|done]).
    done.
  - apply IH. intros y z Hy Hz. apply Hinj; apply elem_of_cons; by right.
Qed.

(** Two strings are requested under the same URL only when they are
    the same string. *)
Lemma quote_request_string_inj (a b : value) :
  is_string a = true -> is_string b = true ->
  App.quote_request a = App.quote_request b -> a = b.
Proof.
  destruct a as [| | | |x| |], b as [| | | |y| |]; try done. intros _ _.
  unfold App.quote_request, get_request, to_string. intros [= E].
  by rewrite E.
Qed.

(** C9, as the code has it: when the backend answers with a portfolio
    list and a watchlist whose symbols are strings, the symbols
    [loadTicker] fetches quotes for are pairwise distinct, and they are
    exactly the defaults, the portfolio symbols and the watchlist
    symbols; one quote request is issued per symbol, after the two list
    requests, and no two of them ask for the same symbol. *)
Theorem loadTicker_symbols_distinct (w : world) (d1 d2 portfolio watchlist : value)
    (from_portfolio from_watchlist : list value) :
  has_ticker (platform w) = true ->
  answered (net (platform w) (fetches w) portfolio_request) = Some d1 ->
  answered (net (platform w) (S (fetches w)) watchlist_request) = Some d2 ->
  get d1 (str "portfolio") = Ok portfolio ->
  get d2 (str "watchlist") = Ok watchlist ->
  App.tickers_of portfolio = Ok from_portfolio ->
  App.tickers_of watchlist = Ok from_watchlist ->
  Forall (fun v => is_string v = true) (from_portfolio ++ from_watchlist) ->
  exists tickers,
    fetched (since w (App.loadTicker w).2)
    = portfolio_request :: watchlist_request :: List.map App.quote_request tickers /\
    NoDup tickers /\
    NoDup (List.map App.quote_request tickers) /\
    (forall v, v ∈ tickers <->
               v ∈ List.map VStr App.defaultTickers
               \/ v ∈ from_portfolio \/ v ∈ from_watchlist).
Proof.
  intros Hhas Ha1 Ha2 Hg1 Hg2 Ht1 Ht2 Hstr.
  unfold portfolio_request, watchlist_request in *.
  destruct (net (platform w) (fetches w) _) as [|r1] eqn:Hn1; [done|].
  destruct (net (platform w) (S (fetches w)) _) as [|r2] eqn:Hn2; [done|].
  cbn in Ha1, Ha2.
  unfold App.loadTicker. run. rewrite Hhas. run. rewrite Hn1. run.
  rewrite Hn2. run. rewrite Ha1. run. rewrite Hg1. run.
  rewrite Ha2. run. rewrite Hg2. run. rewrite Ht1. run. rewrite Ht2. run.
  set (tickers := set_of _).
  match goal with
  | |- context [App.updateTickerWithStocks tickers ?w0] =>
      destruct (updateTickerWithStocks_fetches tickers w0) as (w' & l & E & Hl & Hf);
      rewrite E
  end.
  cbn in Hl. cbn.
  exists tickers. split.
  - erewrite since_app.
    2:{ cbn. rewrite Hl. rewrite <- !app_assoc. reflexivity. }
    cbn. rewrite !fetched_app, fetched_requests, Hf. cbn.
    by rewrite app_nil_r.
  - assert (Hall : Forall (fun v => is_string v = true)
                     (List.map VStr App.defaultTickers
                        ++ from_portfolio ++ from_watchlist)).
    { apply Forall_app. split; [|done].
      apply Forall_forall. intros v Hv.
      by apply list_elem_of_In, in_map_iff in Hv as (? & <- & _). }
    destruct (set_of_distinct
                (List.map VStr App.defaultTickers ++ from_portfolio ++ from_watchlist))
      as [Hnd Hel].
    { eapply Forall_impl; [exact Hall|]. intros v Hv. by destruct v. }
    fold tickers in Hnd, Hel.
    split; [exact Hnd|]. split.
    + apply NoDup_map_inj_on; [|exact Hnd].
      rewrite Forall_forall in Hall.
      intros x y Hx Hy. apply quote_request_string_inj; apply Hall; by apply Hel.
    + intros v. rewrite Hel, !elem_of_app. tauto.
Qed.

Lemma loadTicker_symbols_distinct_witness :
  exists tickers,
    fetched (since Examples.ticker_page (App.loadTicker Examples.ticker_page).2)
    = portfolio_request :: watchlist_request :: List.map App.quote_request tickers /\
    NoDup tickers /\
    NoDup (List.map App.quote_request tickers) /\
    (forall v, v ∈ tickers <->
               v ∈ List.map VStr App.defaultTickers
               \/ v ∈ [VStr (str "AAPL"); VStr (str "IBM")]
               \/ v ∈ [VStr (str "IBM"); VStr (str "SHOP")]).
Proof.
  apply (loadTicker_symbols_distinct Examples.ticker_page
           Examples.portfolio_body Examples.watchlist_body
           (VArr [Examples.holding "AAPL"; Examples.holding "IBM"])
           (VArr [Examples.holding "IBM"; Examples.holding "SHOP"])).
  - reflexivity.
  - vm_compute; reflexivity.
  - vm_compute; reflexivity.
  - vm_compute; reflexivity.
  - vm_compute; reflexivity.
  - vm_compute; reflexivity.
  - vm_compute; reflexivity.
  - repeat constructor.
Defined.

(** C9 as stated fails: a backend that lists the symbol [1] as a number
    in the portfolio and as a string in the watchlist gets both past
    the [Set], and the quote of [1] is requested twice, by the last two
    requests of the run (the two lists and the 21 defaults come
    first). *)
Lemma loadTicker_number_and_string_twice :
  App.tickers_of (VArr [VObj [(str "ticker", VNum 1)]]) = Ok [VNum 1] /\
  App.tickers_of (VArr [Examples.holding "1"]) = Ok [VStr (str "1")] /\
  fetched (since Examples.mixed_page (App.loadTicker Examples.mixed_page).2)
  = portfolio_request :: watchlist_request
      :: List.map App.quote_request
           (List.map VStr App.defaultTickers ++ [VNum 1; VStr (str "1")]) /\
  App.quote_request (VNum 1) = get_request (str "/api/stock/1") /\
  App.quote_request (VStr (str "1")) = get_request (str "/api/stock/1") /\
  ~ NoDup (fetched (since Examples.mixed_page
                      (App.loadTicker Examples.mixed_page).2)).
Proof.
  assert (E : fetched (since Examples.mixed_page
                         (App.loadTicker Examples.mixed_page).2)
              = portfolio_request :: watchlist_request
                  :: List.map App.quote_request
                       (List.map VStr App.defaultTickers
                          ++ [VNum 1; VStr (str "1")]))
    by (vm_compute; reflexivity).
  repeat split; try (vm_compute; reflexivity).
  rewrite E. intros Hnd.
  apply NoDup_ListNoDup in Hnd.
  revert Hnd. vm_compute. intros Hnd.
  do 23 (apply List.NoDup_cons_iff in Hnd as [_ Hnd]).
  apply List.NoDup_cons_iff in Hnd as [Hin _]. apply Hin. by left.
Qed.

(** ** Voice chat: the reply is not tested *)

Lemma Briefing_speakResponse_appends_nothing (text : value) (w : world) :
  exists w' l,
    Briefing.speakResponse text w = (Ok tt, w') /\
    log w' = log w ++ l /\
    appended Assistant l = [] /\ appended User l = [].
Proof.
  unfold Briefing.speakResponse, Briefing.play_audio. run.
  destruct (net _ _ _) as [|[okf [data|]]]; run;
    [| destruct (get data (str "audio")) as [audio|e]; run;
       [destruct (truthy audio); run;
        [destruct (playback_fails _ _); run|]|] |].
  all: eexists _, _; split; [reflexivity|].
  all: (split; [cbn; rewrite <- ?app_assoc; reflexivity|]); done.
Qed.

Lemma appended_app (r : role) (l1 l2 : list event) :
  appended r (l1 ++ l2) = appended r l1 ++ appended r l2.
Proof. apply omap_app. Qed.

(** C10, as the code has it: in voice chat mode, once the chat request
    has resolved with a body that has no [reply], [processVoice] calls
    [addMessage] for the assistant without looking at the reply.  In the
    briefing variant the entry appended shows the undefined value; in
    the ticker variant rendering the undefined value throws, no speech
    request is made, and the one assistant entry appended is the apology
    of the voice service.  [sendMessage], given the same body, appends
    no assistant entry. *)
Theorem processVoice_reply_unchecked (w : world) (audioBlob : list N)
    (r1 r2 : response) (d1 d2 : value) (s : jsstring) :
  net (platform w) (fetches w) (transcribe_request audioBlob) = Resolved r1 ->
  ok r1 = true -> json r1 = Some d1 ->
  get d1 (str "text") = Ok (VStr s) -> trim s <> [] ->
  net (platform w) (S (fetches w)) (App.chat_request (VStr s) true) = Resolved r2 ->
  json r2 = Some d2 ->
  get d2 (str "reply") = Ok VUndefined ->
  let now := time_string (platform w) in
  appended Assistant (since w (Briefing.processVoice audioBlob ChatMode w).2)
  = [Message Assistant (Text VUndefined) now] /\
  appended Assistant (since w (App.processVoice audioBlob ChatMode w).2)
  = [Message Assistant (Html (markdown (escape_html voice_apology))) now] /\
  fetched (since w (App.processVoice audioBlob ChatMode w).2)
  = [transcribe_request audioBlob; App.chat_request (VStr s) true] /\
  (forall w0 : world,
     trim (input_value (chat w0)) <> [] ->
     answered (net (platform w0) (fetches w0)
                 (App.chat_request (VStr (trim (input_value (chat w0)))) false))
     = Some d2 ->
     appended Assistant (since w0 (App.sendMessage w0).2) = [] /\
     appended Assistant (since w0 (Briefing.sendMessage w0).2) = []).
Proof.
  intros Hn1 Hok Hj1 Hg1 Ht Hn2 Hj2 Hg2 now. subst now.
  unfold transcribe_request in *.
  destruct s as [|c0 s0]; [by vm_compute in Ht|].
  split; [|split; [|split]].
  - unfold Briefing.processVoice. run. rewrite Hn1. run. rewrite Hj1. run.
    rewrite Hg1. run.
    change (Briefing.chat_request ?a ?b) with (App.chat_request a b).
    rewrite Hn2. run. rewrite Hj2. run. rewrite Hg2. run.
    match goal with
    | |- context [Briefing.speakResponse VUndefined ?w0] =>
        destruct (Briefing_speakResponse_appends_nothing VUndefined w0)
          as (w' & l & E & Hl & Ha & _);
        rewrite E
    end.
    cbn in Hl. cbn. erewrite since_app.
    2:{ cbn. rewrite Hl. rewrite <- !app_assoc. reflexivity. }
    rewrite !appended_app, Ha. done.
  - unfold App.processVoice. run. rewrite Hn1. run. rewrite Hok. run.
    rewrite Hj1. run. rewrite Hg1. run.
    destruct (trim (c0 :: s0)) as [|c1 s1] eqn:Etrim; [done|]. run.
    rewrite Hn2. run. rewrite Hj2. run. rewrite Hg2. run.
    by since_log.
  - unfold App.processVoice. run. rewrite Hn1. run. rewrite Hok. run.
    rewrite Hj1. run. rewrite Hg1. run.
    destruct (trim (c0 :: s0)) as [|c1 s1] eqn:Etrim; [done|]. run.
    rewrite Hn2. run. rewrite Hj2. run. rewrite Hg2. run.
    by since_log.
  - intros w0 Hm Ha.
    destruct (App_sendMessage_entries w0 Hm) as (_ & t1 & E1 & _ & _ & _ & _ & _ & H1).
    destruct (Briefing_sendMessage_entries w0 Hm) as (_ & t2 & E2 & _ & _ & _ & _ & _ & H2).
    assert (Hr : reply_of (net (platform w0) (fetches w0)
                             (App.chat_request
                                (VStr (trim (input_value (chat w0)))) false))
                 = Some VUndefined) by (unfold reply_of; by rewrite Ha, Hg2).
    rewrite E1, E2. cbn. split; [apply (H1 VUndefined) | apply (H2 VUndefined)]; done.
Qed.

Lemma processVoice_reply_unchecked_witness :
  appended Assistant
    (since Examples.voice_page
       (Briefing.processVoice [] ChatMode Examples.voice_page).2)
  = [Message Assistant (Text VUndefined)
       (time_string (platform Examples.voice_page))] /\
  appended Assistant
    (since Examples.voice_page (App.processVoice [] ChatMode Examples.voice_page).2)
  = [Message Assistant (Html (markdown (escape_html voice_apology)))
       (time_string (platform Examples.voice_page))].
Proof.
  assert (Ht : trim (str "hello") <> []) by (vm_compute; discriminate).
  pose proof (processVoice_reply_unchecked Examples.voice_page []
                (Response true (Some (VObj [(str "text", VStr (str "hello"))])))
                (Response true (Some (VObj [])))
                (VObj [(str "text", VStr (str "hello"))]) (VObj []) (str "hello")
                eq_refl eq_refl eq_refl eq_refl Ht eq_refl eq_refl eq_refl) as H.
  split; [exact (proj1 H) | exact (proj1 (proj2 H))].
Defined.

(** C10 as stated fails in the ticker variant: with no [reply] in the
    answer, the assistant entry that [processVoice] appends does not
    show the undefined value (it is the apology). *)
Lemma processVoice_missing_reply_apologises :
  ~ (exists m,
       appended Assistant
         (since Examples.voice_page
            (App.processVoice [] ChatMode Examples.voice_page).2) = [m] /\
       (msg_content m = Text VUndefined
        \/ msg_content m = Html (to_string VUndefined))).
Proof.
  intros (m & E & H). vm_compute in E. injection E as <-.
  destruct H as [H|H]; vm_compute in H; discriminate.
Qed.

(** * Further properties *)

(** ** Service worker: what the cache gives back *)

Section CacheRoundTrip.
Import ServiceWorker.

Lemma caches_match_snoc_empty (req : request) (name : jsstring) (cs : cache_storage) :
  caches_match req (cs ++ [(name, ∅)]) = caches_match req cs.
Proof.
  induction cs as [|c cs IH]; cbn.
  - by rewrite lookup_empty.
  - by rewrite IH.
Qed.

Lemma caches_match_open (req : request) (name : jsstring) (cs : cache_storage) :
  caches_match req (caches_open name cs) = caches_match req cs.
Proof.
  unfold caches_open. destruct (existsb _ cs); [done|].
  apply caches_match_snoc_empty.
Qed.

Lemma caches_open_names (name : jsstring) (cs : cache_storage) :
  (exists c, c ∈ caches_open name cs /\ c.1 = name) /\
  (forall c, c ∈ caches_open name cs -> c ∈ cs \/ c = (name, ∅)).
Proof.
  unfold caches_open. destruct (existsb _ cs) eqn:E.
  - apply existsb_exists in E as (c & Hc & Hn). apply eqs_true in Hn.
    split; [|by left]. exists c. split; [by apply list_elem_of_In|done].
  - split.
    + exists (name, ∅). split; [|done]. apply elem_of_app. right.
      by apply list_elem_of_singleton.
    + intros c Hc. apply elem_of_app in Hc as [Hc|Hc]; [by left|].
      right. by apply list_elem_of_singleton in Hc.
Qed.

Lemma caches_match_put_hit (name : jsstring) (req : request) (r : response)
    (cs : cache_storage) :
  storable r = true ->
  (exists c, c ∈ cs /\ c.1 = name) ->
  (forall c, c ∈ cs -> c.1 <> name -> c.2 !! url req = None) ->
  caches_match req (cache_put name req r cs) = Some r.
Proof.
  unfold cache_put. intros ->.
  induction cs as [|c cs IH]; intros (c0 & Hc0 & Hn) Hother.
  - by apply elem_of_nil in Hc0.
  - cbn. destruct (eqs c.1 name) eqn:E; cbn.
    + by rewrite lookup_insert_eq.
    + apply eqs_false in E. rewrite (Hother c) by (done || apply elem_of_cons; by left).
      apply IH.
      * apply elem_of_cons in Hc0 as [->|Hc0]; [done|]. by exists c0.
      * intros c' Hc'. apply Hother. apply elem_of_cons. by right.
Qed.

Lemma caches_match_put_other (name : jsstring) (req req' : request) (r : response)
    (cs : cache_storage) :
  url req' <> url req ->
  caches_match req' (cache_put name req r cs) = caches_match req' cs.
Proof.
  intros Hne. unfold cache_put. destruct (storable r); [|done].
  induction cs as [|c cs IH]; cbn; [done|].
  destruct (eqs c.1 name); cbn; rewrite ?lookup_insert_ne by done; by rewrite IH.
Qed.



Lemma on_fetch_offline (network : request -> option response) (req : request)
    (s : worker) :
  method req = str "GET" -> includes (url req) (str "/api/") = false ->
  network req = None ->
  (on_fetch network req s).1 = RespondWith (caches_match req (caches s)).
Proof.
  intros Hm Hu Hn. unfold on_fetch. apply eqs_true in Hm.
  by rewrite Hm, Hu, Hn.
Qed.



End CacheRoundTrip.

Section CacheAfterActivation.
Import ServiceWorker.


Lemma cache_put_names (name : jsstring) (req : request) (r : response)
    (cs : cache_storage) (c : jsstring * gmap jsstring response) :
  c ∈ cache_put name req r cs ->
  exists c0, c0 ∈ cs /\ c.1 = c0.1 /\ (c.1 <> name -> c = c0).
Proof.
  unfold cache_put. destruct (storable r); [|by exists c].
  intros Hc. apply list_elem_of_In, in_map_iff in Hc as (c0 & E & Hc0).
  exists c0. split; [by apply list_elem_of_In|].
  destruct (eqs c0.1 name) eqn:En; subst c; cbn; [|done].
  apply eqs_true in En. split; [done|]. intros Hne. by rewrite En in Hne.
Qed.




(** X3: whatever a fetch event does, what cache storage answers for a
    request with another URL stays the same. *)
Theorem fetch_leaves_other_entries (network : request -> option response)
    (req other : request) (s : worker) :
  url other <> url req ->
  caches_match other (caches (on_fetch network req s).2)
  = caches_match other (caches s).
Proof.
  intros Hne. unfold on_fetch.
  destruct (negb _); [done|]. destruct (includes _ _); [done|].
  destruct (network req) as [r|]; cbn; [|done].
  by rewrite caches_match_put_other, caches_match_open.
Qed.

Lemma fetch_leaves_other_entries_witness :
  caches_match (Request (str "GET") (str "/index.html"))
    (caches (on_fetch (fun _ => Some (Response 404 [])) Examples.stylesheet
               Examples.three_caches).2)
  = caches_match (Request (str "GET") (str "/index.html"))
      (caches Examples.three_caches).
Proof.
  apply (fetch_leaves_other_entries (fun _ => Some (Response 404 []))
           Examples.stylesheet (Request (str "GET") (str "/index.html"))
           Examples.three_caches).
  vm_compute. discriminate.
Defined.

End CacheAfterActivation.

(** ** Service worker: push payloads, notification clicks, install *)

Section PushAndClick.
Import ServiceWorker Lifecycle.

(** X4: a push payload that parses as JSON but is not an object (a
    quoted string, a number, an array, [null]) changes nothing: the
    notification shown carries the default title and the default body,
    not the payload. *)
Theorem push_non_object_payload_ignored (m : push_message) (parsed : value)
    (s : worker) :
  json m = Some parsed ->
  (forall fields, parsed <> VObj fields) ->
  exists n,
    shown (on_push (Some m) s) = shown s ++ [n] /\
    title n = VStr (str "Stockman") /\
    body n = VStr (str "You have a new update!") /\
    icon n = VStr (str "/icons/icon-192.png") /\
    badge n = VStr (str "/icons/icon-72.png") /\
    data n = VObj [(str "url", VStr (str "/"))].
Proof.
  intros Hj Hno. unfold on_push, push_descriptor. rewrite Hj.
  destruct parsed; try (eexists; split; [reflexivity|]; by cbn).
  by destruct (Hno fields).
Qed.

Lemma push_non_object_payload_ignored_witness :
  exists n,
    shown (on_push (Some (PushMessage (str "42") (Some (VNum 42))))
             Examples.fresh_worker) = [n] /\
    body n = VStr (str "You have a new update!").
Proof.
  destruct (push_non_object_payload_ignored
              (PushMessage (str "42") (Some (VNum 42))) (VNum 42)
              Examples.fresh_worker eq_refl ltac:(discriminate))
    as (n & Hs & _ & Hb & _).
  exists n. split; [exact Hs | exact Hb].
Defined.

Lemma first_own_client_spec (origin : jsstring) (clientList : list client)
    (start : nat) :
  match first_own_client origin clientList start with
  | Some i =>
      exists k c, i = (start + k)%nat /\ clientList !! k = Some c /\
        includes (client_url c) origin = true /\ has_focus_method c = true /\
        forall j c', (j < k)%nat -> clientList !! j = Some c' ->
          includes (client_url c') origin && has_focus_method c' = false
  | None =>
      forall c, c ∈ clientList ->
        includes (client_url c) origin && has_focus_method c = false
  end.
Proof.
  revert start. induction clientList as [|c cs IH]; intros start; cbn.
  - intros c Hc. by apply elem_of_nil in Hc.
  - destruct (includes (client_url c) origin && has_focus_method c) eqn:E.
    + apply andb_true_iff in E as [E1 E2].
      exists 0%nat, c. repeat split; [lia|done|done|]. intros j c' Hj. lia.
    + specialize (IH (S start)).
      destruct (first_own_client origin cs (S start)) as [i|].
      * destruct IH as (k & c1 & -> & Hk & H1 & H2 & Hbefore).
        exists (S k), c1. repeat split; [lia|done|done|done|].
        intros [|j] c' Hj Hl; cbn in Hl; [by simplify_eq|].
        apply (Hbefore j); [lia|done].
      * intros c' Hc'. apply elem_of_cons in Hc' as [->|Hc']; [done|by apply IH].
Qed.

Lemma urlToOpen_truthy (data : value) : truthy (urlToOpen data) = true.
Proof.
  unfold urlToOpen. cbv zeta.
  match goal with
  | |- truthy (if truthy ?u then _ else _) = true =>
      destruct (truthy u) eqn:E; [exact E | reflexivity]
  end.
Qed.

(** X5: a notification click always closes the notification first.
    The dismiss action does nothing more.  Any other click does exactly
    one thing more.  It focuses the first open window whose URL
    includes the origin of the worker and that has a [focus] method;
    or, when there is no such window, it opens a window at a URL
    that is never empty: the URL the notification carries when that
    is truthy, and [/] when it is not or when the notification
    carries no data ([null] or [undefined], which the [?.] lets
    through). *)
Theorem notificationclick_one_action (action : jsstring) (data : value)
    (origin : jsstring) (clientList : list client) :
  (action = str "dismiss" ->
   on_notificationclick action data origin clientList = [CloseNotification]) /\
  (action <> str "dismiss" ->
   (exists i c,
      on_notificationclick action data origin clientList
      = [CloseNotification; FocusClient i] /\
      clientList !! i = Some c /\
      includes (client_url c) origin = true /\
      has_focus_method c = true /\
      forall j c', (j < i)%nat -> clientList !! j = Some c' ->
        includes (client_url c') origin && has_focus_method c' = false)
   \/
   (exists target,
      on_notificationclick action data origin clientList
      = [CloseNotification; OpenWindow target] /\
      truthy target = true /\
      (forall u, get data (str "url") = Ok u -> truthy u = true -> target = u) /\
      (forall u, get data (str "url") = Ok u -> truthy u = false ->
                 target = VStr (str "/")) /\
      (data = VNull \/ data = VUndefined -> target = VStr (str "/")) /\
      forall c, c ∈ clientList ->
        includes (client_url c) origin && has_focus_method c = false)).
Proof.
  unfold on_notificationclick. split.
  - intros ->. by rewrite (proj2 (eqs_true _ _) eq_refl).
  - intros Hne. apply eqs_false in Hne. rewrite Hne.
    pose proof (first_own_client_spec origin clientList 0) as H.
    destruct (first_own_client origin clientList 0) as [i|].
    + destruct H as (k & c & -> & Hk & H1 & H2 & Hbefore).
      left. exists k, c. by repeat split.
    + right. exists (urlToOpen data). split; [done|].
      split; [apply urlToOpen_truthy|].
      split; [|split; [|split; [|done]]].
      * intros u Hg Hu. unfold urlToOpen. rewrite Hg.
        destruct data; cbn in Hg; simplify_eq; cbn; by rewrite ?Hu.
      * intros u Hg Hu. unfold urlToOpen. rewrite Hg.
        destruct data; cbn in Hg; simplify_eq; cbn; by rewrite ?Hu.
      * by intros [-> | ->].
Qed.

Lemma notificationclick_one_action_witness :
  on_notificationclick (str "dismiss") VNull (str "https://stockman.app")
    [Client (str "https://stockman.app/") true]
  = [CloseNotification] /\
  (exists i c,
     on_notificationclick [] VNull (str "https://stockman.app")
       [Client (str "https://example.org/") true;
        Client (str "https://stockman.app/") true]
     = [CloseNotification; FocusClient i] /\
     [Client (str "https://example.org/") true;
      Client (str "https://stockman.app/") true] !! i = Some c) /\
  on_notificationclick [] (VObj [(str "url", VStr (str "/portfolio"))])
    (str "https://stockman.app")
    [Client (str "https://stockman.app/") false]
  = [CloseNotification; OpenWindow (VStr (str "/portfolio"))].
Proof.
  split; [|split].
  - apply (proj1 (notificationclick_one_action (str "dismiss") VNull
                    (str "https://stockman.app")
                    [Client (str "https://stockman.app/") true])).
    reflexivity.
  - destruct (proj2 (notificationclick_one_action [] VNull
                       (str "https://stockman.app")
                       [Client (str "https://example.org/") true;
                        Client (str "https://stockman.app/") true])
                ltac:(discriminate))
      as [(i & c & E & Hl & _)|(t & E & _)].
    + exists i, c. by split.
    + vm_compute in E. discriminate.
  - destruct (proj2 (notificationclick_one_action []
                       (VObj [(str "url", VStr (str "/portfolio"))])
                       (str "https://stockman.app")
                       [Client (str "https://stockman.app/") false])
                ltac:(discriminate))
      as [(i & c & E & _)|(t & E & _ & Hu & _)].
    + vm_compute in E. discriminate.
    + rewrite E. by rewrite (Hu (VStr (str "/portfolio")) eq_refl eq_refl).
Defined.

End PushAndClick.

Section Install.
Import ServiceWorker Lifecycle.


Lemma put_all_caches (entries : list (request * response)) (s : worker) :
  caches (put_all CACHE_NAME entries s) = fold_left put_entry entries (caches s).
Proof.
  unfold put_all. revert s. induction entries as [|e entries IH]; intros s; cbn.
  - done.
  - by rewrite IH.
Qed.

Lemma announce_caches (urls : list jsstring) (s : worker) :
  caches (fold_left (fun s u => emit (NetworkFetch (asset_request u)) s) urls s)
  = caches s.
Proof.
  revert s. induction urls as [|u urls IH]; intros s; cbn; [done|].
  by rewrite IH.
Qed.

Lemma fold_put_other (req : request) (entries : list (request * response))
    (cs : cache_storage) :
  (forall e, e ∈ entries -> url e.1 <> url req) ->
  caches_match req (fold_left put_entry entries cs) = caches_match req cs.
Proof.
  revert cs. induction entries as [|e entries IH]; intros cs Hne; cbn; [done|].
  rewrite IH.
  - unfold put_entry. apply caches_match_put_other. intros E. symmetry in E.
    revert E. apply Hne. apply elem_of_cons. by left.
  - intros e' He'. apply Hne. apply elem_of_cons. by right.
Qed.

Lemma fold_put_hit (req : request) (r : response)
    (entries : list (request * response)) (cs : cache_storage) :
  (forall e, e ∈ entries -> storable e.2 = true) ->
  NoDup (List.map (fun e => url e.1) entries) ->
  (req, r) ∈ entries ->
  (exists c, c ∈ cs /\ c.1 = CACHE_NAME) ->
  (forall c, c ∈ cs -> c.1 <> CACHE_NAME -> c.2 !! url req = None) ->
  caches_match req (fold_left put_entry entries cs) = Some r.
Proof.
  revert cs. induction entries as [|e entries IH]; intros cs Hst Hnd Hin Hex Hother.
  - by apply elem_of_nil in Hin.
  - cbn in Hnd. apply NoDup_cons in Hnd as [Hfresh Hnd]. cbn.
    assert (Hse : storable e.2 = true) by (apply Hst, elem_of_cons; by left).
    assert (Hst' : forall e', e' ∈ entries -> storable e'.2 = true)
      by (intros e' He'; apply Hst, elem_of_cons; by right).
    apply elem_of_cons in Hin as [<-|Hin].
    + rewrite fold_put_other.
      * by apply caches_match_put_hit.
      * intros e' He' E. apply Hfresh. cbn. rewrite <- E.
        apply list_elem_of_In, in_map_iff. exists e'.
        split; [done|by apply list_elem_of_In].
    + apply IH; [done|done|done| |].
      * destruct Hex as (c & Hc & Hn).
        unfold put_entry, cache_put. rewrite Hse.
        exists (if eqs c.1 CACHE_NAME then (c.1, <[url e.1 := e.2]> c.2) else c).
        split.
        -- apply list_elem_of_In, in_map_iff. exists c. split; [done|].
           by apply list_elem_of_In.
        -- by destruct (eqs c.1 CACHE_NAME).
      * intros c Hc Hne. apply cache_put_names in Hc as (c0 & Hc0 & E & Hsame).
        rewrite (Hsame Hne). apply Hother; [done|]. by rewrite <- E.
Qed.

Lemma fetch_assets_entries (network : request -> option response)
    (urls : list jsstring) (entries : list (request * response)) :
  fetch_assets network urls = Some entries ->
  List.map (fun e => url e.1) entries = urls /\
  (forall u r, u ∈ urls -> network (asset_request u) = Some r ->
               (asset_request u, r) ∈ entries) /\
  forall e, e ∈ entries -> ok_status e.2 = true.
Proof.
  revert entries. induction urls as [|u urls IH]; intros entries; cbn.
  - intros [= <-]. split; [done|]. split.
    + intros u r Hu. by apply elem_of_nil in Hu.
    + intros e He. by apply elem_of_nil in He.
  - destruct (network (asset_request u)) as [r0|] eqn:En; [|done].
    destruct (ok_status r0) eqn:Hok; [|done].
    destruct (fetch_assets network urls) as [rest|]; [|done].
    cbn. intros [= <-]. destruct (IH rest eq_refl) as (Hm & Hall & Hoks).
    split; [cbn; by rewrite Hm|]. split.
    + intros u' r Hu' Hr. apply elem_of_cons in Hu' as [->|Hu'].
      * rewrite En in Hr. injection Hr as <-. apply elem_of_cons. by left.
      * apply elem_of_cons. right. by apply Hall.
    + intros e He. apply elem_of_cons in He as [->|He]; [done|by apply Hoks].
Qed.

Lemma ok_status_storable (r : response) : ok_status r = true -> storable r = true.
Proof. unfold ok_status. by intros [_ H]%andb_prop. Qed.

Lemma fetch_assets_succeeds (network : request -> option response)
    (urls : list jsstring) :
  (forall u, u ∈ urls ->
     exists r, network (asset_request u) = Some r /\ ok_status r = true) ->
  exists entries, fetch_assets network urls = Some entries.
Proof.
  induction urls as [|u urls IH]; intros Hall; cbn; [by eexists|].
  destruct (Hall u) as (r & -> & ->); [apply elem_of_cons; by left|].
  destruct IH as [entries ->]; [|by eexists].
  intros u' Hu'. apply Hall. apply elem_of_cons. by right.
Qed.

Lemma asset_intercepted (u : jsstring) :
  u ∈ ASSETS_TO_CACHE ->
  includes (url (asset_request u)) (str "/api/") = false.
Proof.
  intros Hu. unfold ASSETS_TO_CACHE in Hu. cbn in Hu.
  repeat (apply elem_of_cons in Hu as [->|Hu]; [vm_compute; reflexivity|]).
  by apply elem_of_nil in Hu.
Qed.

(** X6: when every asset of the manifest is fetched with a status
    that [cache.addAll] accepts (200 to 299, but not the partial 206),
    the install step succeeds and afterwards each asset is answered
    from the cache, with the response fetched at install, when the
    network fails (provided no other cache already holds it). *)
Theorem install_then_offline (network : request -> option response) (s : worker) :
  (forall u, u ∈ ASSETS_TO_CACHE ->
     exists r, network (asset_request u) = Some r /\ ok_status r = true) ->
  (forall c u, c ∈ caches s -> c.1 <> CACHE_NAME -> u ∈ ASSETS_TO_CACHE ->
               c.2 !! u = None) ->
  fulfilled (on_install network s) = true /\
  forall u r (offline : request -> option response),
    u ∈ ASSETS_TO_CACHE ->
    network (asset_request u) = Some r ->
    offline (asset_request u) = None ->
    (on_fetch offline (asset_request u) (installed (on_install network s))).1
    = RespondWith (Some r).
Proof.
  intros Hnet Hother. unfold on_install.
  destruct (fetch_assets_succeeds network ASSETS_TO_CACHE Hnet) as [entries E].
  rewrite E. split; [done|]. cbn [installed].
  intros u r offline Hu Hr Hoff.
  rewrite on_fetch_offline; [|done|by apply asset_intercepted|done].
  f_equal. rewrite put_all_caches, announce_caches. cbn.
  destruct (fetch_assets_entries network ASSETS_TO_CACHE entries E)
    as (Hm & Hall & Hoks).
  destruct (caches_open_names CACHE_NAME (caches s)) as [Hex Hopen].
  apply fold_put_hit.
  - intros e He. by apply ok_status_storable, Hoks.
  - rewrite Hm. apply (bool_decide_unpack _). vm_compute. exact I.
  - by apply Hall.
  - done.
  - intros c Hc Hne. destruct (Hopen c Hc) as [Hin| ->]; [|done].
    by apply (Hother c u).
Qed.

Lemma install_then_offline_witness :
  fulfilled (on_install (fun _ => Some Examples.home_page) Examples.fresh_worker)
  = true /\
  (on_fetch Examples.no_network (asset_request (str "/js/app.js"))
     (installed (on_install (fun _ => Some Examples.home_page)
                   Examples.fresh_worker))).1
  = RespondWith (Some Examples.home_page).
Proof.
  destruct (install_then_offline (fun _ => Some Examples.home_page)
              Examples.fresh_worker) as [H1 H2].
  - intros u _. exists Examples.home_page. split; reflexivity.
  - intros c u Hc. by apply elem_of_nil in Hc.
  - split; [exact H1|]. apply H2; [|reflexivity|reflexivity].
    unfold ASSETS_TO_CACHE. cbn. do 3 (apply elem_of_cons; right).
    apply elem_of_cons. by left.
Defined.

(** X7: when one asset of the manifest cannot be fetched, or comes back
    with a status that [cache.addAll] refuses, the install step fails
    and nothing is stored:
    cache storage answers every request as it did before. *)
Theorem install_all_or_nothing (network : request -> option response)
    (s : worker) (u : jsstring) :
  u ∈ ASSETS_TO_CACHE ->
  (network (asset_request u) = None
   \/ exists r, network (asset_request u) = Some r /\ ok_status r = false) ->
  fulfilled (on_install network s) = false /\
  forall req, caches_match req (caches (installed (on_install network s)))
              = caches_match req (caches s).
Proof.
  intros Hu Hbad. unfold on_install.
  assert (E : fetch_assets network ASSETS_TO_CACHE = None).
  { revert Hu. generalize ASSETS_TO_CACHE as urls.
    induction urls as [|u' urls IH]; intros Hu; [by apply elem_of_nil in Hu|].
    cbn. apply elem_of_cons in Hu as [<-|Hu].
    - destruct Hbad as [->|(r & -> & ->)]; done.
    - destruct (network (asset_request u')) as [r|]; [|done].
      destruct (ok_status r); [|done]. by rewrite IH. }
  rewrite E. split; [done|]. intros req. cbn [installed].
  rewrite announce_caches. cbn. apply caches_match_open.
Qed.

Lemma install_all_or_nothing_witness :
  fulfilled (on_install
               (fun req => if eqs (url req) (str "/manifest.json")
                           then Some (Response 404 [])
                           else Some Examples.home_page)
               Examples.fresh_worker) = false.
Proof.
  apply (install_all_or_nothing
           (fun req => if eqs (url req) (str "/manifest.json")
                       then Some (Response 404 [])
                       else Some Examples.home_page)
           Examples.fresh_worker (str "/manifest.json")).
  - unfold ASSETS_TO_CACHE. cbn. do 4 (apply elem_of_cons; right).
    apply elem_of_cons. by left.
  - right. exists (Response 404 []). split; reflexivity.
Defined.

End Install.

(** ** The client: the message list only grows *)


Lemma grows_refl (w : world) : grows w w.
Proof. exists []. by rewrite !app_nil_r. Qed.

Lemma grows_trans (w1 w2 w3 : world) : grows w1 w2 -> grows w2 w3 -> grows w1 w3.
Proof.
  intros (l1 & Hl1 & Hm1) (l2 & Hl2 & Hm2). exists (l1 ++ l2).
  split; [by rewrite Hl2, Hl1, app_assoc|].
  unfold appended_all in *. by rewrite Hm2, Hm1, omap_app, app_assoc.
Qed.

Lemma growing_bind {A B} (m : M A) (k : A -> M B) :
  growing m -> (forall a, growing (k a)) -> growing (m ≫= k).
Proof.
  intros Hm Hk w. unfold mbind, M_bind. specialize (Hm w).
  destruct (m w) as [[a|e] w1]; cbn in *; [|done].
  eapply grows_trans; [exact Hm | apply Hk].
Qed.

Lemma growing_try_catch {A} (block : M A) (handler : exn -> M A) :
  growing block -> (forall e, growing (handler e)) ->
  growing (try_catch block handler).
Proof.
  intros Hb Hh w. unfold try_catch. specialize (Hb w).
  destruct (block w) as [[a|e] w1]; cbn in *; [done|].
  eapply grows_trans; [exact Hb | apply Hh].
Qed.

Lemma growing_try_catch_finally {A} (block : M A) (handler : exn -> M A)
    (finalizer : M unit) :
  growing block -> (forall e, growing (handler e)) -> growing finalizer ->
  growing (try_catch_finally block handler finalizer).
Proof.
  intros Hb Hh Hf w. unfold try_catch_finally.
  pose proof (growing_try_catch block handler Hb Hh w) as H1.
  destruct (try_catch block handler w) as [r w1]. cbn in H1.
  specialize (Hf w1). destruct (finalizer w1) as [[[]|e] w2]; cbn in *;
    by eapply grows_trans.
Qed.

Lemma growing_pure {A} (m : M A) : (forall w, (m w).2 = w) -> growing m.
Proof. intros H w. rewrite H. apply grows_refl. Qed.

(** A change of the world that touches neither the log nor the
    children of [#messages]. *)
Lemma growing_modify (f : world -> world) :
  (forall w, log (f w) = log w) ->
  (forall w, children (chat (f w)) = children (chat w)) ->
  growing (modify f).
Proof.
  intros Hl Hc w. exists []. cbn. by rewrite Hl, Hc, !app_nil_r.
Qed.

Lemma growing_emit (e : event) : appended_all [e] = [] -> growing (emit e).
Proof. intros He w. exists [e]. split; [done|]. cbn in *. by rewrite He, app_nil_r. Qed.

Lemma growing_map_m {A B} (f : A -> M B) (l : list A) :
  (forall a, growing (f a)) -> growing (map_m f l).
Proof.
  intros Hf. induction l as [|a l IH]; cbn [map_m].
  - by apply growing_pure.
  - apply growing_bind; [done|]. intros b. apply growing_bind; [done|].
    intros bs. by apply growing_pure.
Qed.

Create HintDb growing.

Ltac grow_steps :=
  repeat first
    [ solve [auto with growing nocore]
    | apply growing_bind; [|intros ?]
    | apply growing_try_catch; [|intros ?]
    | apply growing_try_catch_finally; [|intros ?|]
    | apply growing_map_m; intros ?
    | solve [apply growing_pure; reflexivity]
    | solve [apply growing_modify; reflexivity]
    | solve [apply growing_emit; reflexivity]
    | match goal with
      | |- growing (match ?x with _ => _ end) => destruct x
      end ].

Lemma messages_of_without_typing (ch : list node) :
  messages_of (List.filter (fun n => negb (App.is_typing n)) ch ++ [TypingIndicator])
  = messages_of ch.
Proof.
  unfold messages_of. rewrite omap_app. cbn. rewrite app_nil_r.
  induction ch as [|[m|] ch IH]; cbn; [done| |done]. by rewrite IH.
Qed.

Lemma growing_showTyping : growing App.showTyping.
Proof.
  intros w. exists []. split; [cbn; by rewrite app_nil_r|].
  rewrite app_nil_r. exact (messages_of_without_typing (children (chat w))).
Qed.

Lemma growing_App_addMessage (r : role) (content : value) :
  growing (App.addMessage r content).
Proof.
  intros w. unfold App.addMessage. run.
  destruct (match r with Assistant => _ | User => _ end) as [h|e]; run.
  - eexists [_]. split; [reflexivity|]. cbn. unfold messages_of. by rewrite omap_app.
  - exists []. cbn. by rewrite !app_nil_r.
Qed.

Lemma growing_Briefing_addMessage (r : role) (content : value) :
  growing (Briefing.addMessage r content).
Proof.
  intros w. unfold Briefing.addMessage. run.
  eexists [_]. split; [reflexivity|]. cbn. unfold messages_of. by rewrite omap_app.
Qed.

#[local] Hint Resolve growing_showTyping growing_App_addMessage
  growing_Briefing_addMessage : growing.

Lemma growing_fetch (req : request) : growing (fetch req).
Proof. unfold fetch, fetch_start, await_fetch, outcome_of. grow_steps. Qed.

Lemma growing_json_of (r : response) : growing (json_of r).
Proof. unfold json_of. grow_steps. Qed.

#[local] Hint Resolve growing_fetch growing_json_of : growing.

Lemma growing_App_speakResponse (text : value) : growing (App.speakResponse text).
Proof.
  unfold App.speakResponse, App.useBrowserSpeech, App.play_audio. grow_steps.
Qed.

Lemma growing_Briefing_speakResponse (text : value) :
  growing (Briefing.speakResponse text).
Proof. unfold Briefing.speakResponse, Briefing.play_audio. grow_steps. Qed.

#[local] Hint Resolve growing_App_speakResponse growing_Briefing_speakResponse
  : growing.

Lemma growing_App_processVoice (audioBlob : list N) (mode : voice_mode) :
  growing (App.processVoice audioBlob mode).
Proof. unfold App.processVoice, App.hideTyping. grow_steps. Qed.

#[local] Hint Resolve growing_App_processVoice : growing.

(** X8: no handler of the page removes, reorders or rewrites a message:
    whatever the network answers, after [sendMessage], [processVoice],
    the recorder handlers, [checkMorningWisdom], [loadTicker] and
    [saveProfile] the message list is the earlier list followed by
    exactly the messages that were appended, in the order they were
    appended. *)
Theorem message_list_only_grows :
  growing App.sendMessage /\
  (forall blob mode, growing (App.processVoice blob mode)) /\
  (forall mode, growing (App.onstop mode)) /\
  (forall mode, growing (App.startVoice mode)) /\
  growing App.stopVoice /\
  (forall data, growing (App.ondataavailable data)) /\
  growing App.checkMorningWisdom /\
  growing App.loadTicker /\
  growing Briefing.sendMessage /\
  (forall blob mode, growing (Briefing.processVoice blob mode)) /\
  (forall name, growing (Profile.saveProfile name)).
Proof.
  repeat split; intros.
  - unfold App.sendMessage, App.hideTyping. grow_steps.
  - apply growing_App_processVoice.
  - unfold App.onstop. grow_steps.
  - unfold App.startVoice. grow_steps.
  - unfold App.stopVoice. grow_steps.
  - unfold App.ondataavailable. grow_steps.
  - unfold App.checkMorningWisdom. grow_steps.
  - unfold App.loadTicker, App.updateTickerWithStocks, App.quote_data,
      await_fetch, outcome_of, fetch_start.
    grow_steps.
  - unfold Briefing.sendMessage, Briefing.showLoading, Briefing.hideLoading.
    grow_steps.
  - unfold Briefing.processVoice, Briefing.showLoading, Briefing.hideLoading.
    grow_steps.
  - unfold Profile.saveProfile. grow_steps.
Qed.

(** ** Chat: blank input and the state [sendMessage] leaves *)

Lemma drop_while_all (p : N -> bool) (s : jsstring) :
  Forall (fun c => p c = true) s -> drop_while p s = [].
Proof. induction 1 as [|c s Hc _ IH]; cbn; [done|]. by rewrite Hc. Qed.

Lemma trim_blank (s : jsstring) :
  Forall (fun c => is_white_space c = true) s -> trim s = [].
Proof. intros H. unfold trim. by rewrite (drop_while_all _ s H). Qed.

(** X9: input that is empty or made of white space only is ignored by
    [sendMessage]: nothing is sent, nothing is appended, and the world
    (the input field included) stays as it was. *)
Theorem sendMessage_ignores_blank_input (w : world) :
  Forall (fun c => is_white_space c = true) (input_value (chat w)) ->
  App.sendMessage w = (Ok tt, w) /\ Briefing.sendMessage w = (Ok tt, w).
Proof.
  intros H. apply trim_blank in H.
  unfold App.sendMessage, Briefing.sendMessage. run. by rewrite H.
Qed.

Lemma sendMessage_ignores_blank_input_witness :
  App.sendMessage (Examples.page [32; 10; 9] (Examples.env_at 7 30 Examples.offline))
  = (Ok tt, Examples.page [32; 10; 9] (Examples.env_at 7 30 Examples.offline)).
Proof.
  apply (sendMessage_ignores_blank_input
           (Examples.page [32; 10; 9] (Examples.env_at 7 30 Examples.offline))).
  repeat constructor.
Defined.

(** X10: after [sendMessage] on a non-blank input, whatever the network
    answers, the input field is empty and the indicator of work in
    progress is hidden again (the typing indicator in one variant, the
    loading mark in the other); the welcome card is hidden. *)
Theorem sendMessage_leaves_page_idle (w : world) :
  trim (input_value (chat w)) <> [] ->
  input_value (chat (App.sendMessage w).2) = [] /\
  typing_hidden (chat (App.sendMessage w).2) = true /\
  welcome_hidden (chat (App.sendMessage w).2) = true /\
  input_value (chat (Briefing.sendMessage w).2) = [] /\
  loading_hidden (chat (Briefing.sendMessage w).2) = true.
Proof.
  intros Hm.
  destruct (trim (input_value (chat w))) as [|c0 s0] eqn:Ht; [done|].
  split; [|split; [|split; [|split]]].
  1-3: run; rewrite Ht; run;
    destruct (net _ _ _) as [|[okf [data|]]]; run;
    [| destruct (get data (str "reply")) as [reply|e]; run;
       [destruct (truthy reply); run;
        [destruct (formatMessage reply); run|]|] |]; done.
  all: run; rewrite Ht; run;
    destruct (net _ _ _) as [|[okf [data|]]]; run;
    [| destruct (get data (str "reply")) as [reply|e]; run;
       [destruct (truthy reply); run|] |]; done.
Qed.

Lemma sendMessage_leaves_page_idle_witness :
  input_value (chat (App.sendMessage (Examples.typed_hello Examples.offline)).2)
  = [] /\
  typing_hidden (chat (App.sendMessage (Examples.typed_hello Examples.offline)).2)
  = true.
Proof.
  assert (H : trim (input_value (chat (Examples.typed_hello Examples.offline)))
              <> []) by (vm_compute; discriminate).
  pose proof (sendMessage_leaves_page_idle
                (Examples.typed_hello Examples.offline) H) as (H1 & H2 & _).
  split; [exact H1 | exact H2].
Defined.

(** ** Voice: what [processVoice] does with the transcription *)


(** X11: when the transcription gives nothing to work with, no chat
    request is made and no user message is shown; exactly one assistant
    message is: the apology of the mode when the request is rejected,
    answered with an error status or with a body that is not JSON, and
    the invitation to speak again when the transcript is missing, empty
    or blank.  The typing indicator ends hidden. *)
Theorem processVoice_without_transcript (audioBlob : list N) (mode : voice_mode)
    (w : world) :
  let o := net (platform w) (fetches w) (transcribe_request audioBlob) in
  let w' := (App.processVoice audioBlob mode w).2 in
  ((o = Rejected \/ exists r, o = Resolved r /\ (ok r = false \/ json r = None)) ->
   fetched (since w w') = [transcribe_request audioBlob] /\
   appended User (since w w') = [] /\
   appended Assistant (since w w') = [assistant_says (voice_failure_text mode) w] /\
   typing_hidden (chat w') = true) /\
  (forall r data v,
     o = Resolved r -> ok r = true -> json r = Some data ->
     get data (str "text") = Ok v ->
     (truthy v = false \/ exists s, v = VStr s /\ trim s = []) ->
     fetched (since w w') = [transcribe_request audioBlob] /\
     appended User (since w w') = [] /\
     appended Assistant (since w w') = [assistant_says didnt_catch w] /\
     typing_hidden (chat w') = true).
Proof.
  intros o w'. subst o w'.
  unfold transcribe_request, assistant_says, voice_failure_text, text_apology,
    voice_apology, didnt_catch.
  split.
  - intros Hbad. unfold App.processVoice. run.
    destruct (net _ _ _) as [|r] eqn:Hn; run.
    + destruct mode; run; repeat split; by since_log.
    + destruct Hbad as [?|(r' & [= <-] & [Hr|Hr])]; [done| |]; rewrite Hr; run.
      * destruct mode; run; repeat split; by since_log.
      * destruct (ok r); run; destruct mode; run; repeat split; by since_log.
  - intros r data v Hn Hok Hj Hg Hblank. unfold App.processVoice. run.
    rewrite Hn. run. rewrite Hok. run. rewrite Hj. run. rewrite Hg. run.
    destruct Hblank as [Hf|(s & -> & Hs)].
    + rewrite Hf. run. repeat split; by since_log.
    + destruct s as [|c s]; run; [repeat split; by since_log|].
      rewrite Hs. run. repeat split; by since_log.
Qed.

Lemma processVoice_without_transcript_witness :
  fetched (since (Examples.typed_hello Examples.offline)
             (App.processVoice [1; 2] ChatMode
                (Examples.typed_hello Examples.offline)).2)
  = [transcribe_request [1; 2]] /\
  appended Assistant
    (since (Examples.typed_hello Examples.offline)
       (App.processVoice [1; 2] ChatMode (Examples.typed_hello Examples.offline)).2)
  = [assistant_says voice_apology (Examples.typed_hello Examples.offline)].
Proof.
  destruct (proj1 (processVoice_without_transcript [1; 2] ChatMode
                     (Examples.typed_hello Examples.offline))
              (or_introl eq_refl)) as (H1 & _ & H3 & _).
  split; [exact H1 | exact H3].
Defined.

(** X12: in text mode a transcript that is not blank is put into the
    input field as it came (not trimmed) and the field is focused;
    nothing is sent, no message is appended, and the typing indicator
    ends hidden. *)
Theorem processVoice_text_mode_fills_input (audioBlob : list N) (w : world)
    (r : response) (data : value) (s : jsstring) :
  net (platform w) (fetches w) (transcribe_request audioBlob) = Resolved r ->
  ok r = true -> json r = Some data ->
  get data (str "text") = Ok (VStr s) -> trim s <> [] ->
  let w' := (App.processVoice audioBlob TextMode w).2 in
  (App.processVoice audioBlob TextMode w).1 = Ok tt /\
  since w w' = [EFetch (transcribe_request audioBlob); ESettled (fetches w);
                EFocusInput] /\
  input_value (chat w') = s /\
  messages_of (children (chat w')) = messages_of (children (chat w)) /\
  typing_hidden (chat w') = true.
Proof.
  intros Hn Hok Hj Hg Ht w'. subst w'. unfold transcribe_request in *.
  destruct s as [|c s]; [by vm_compute in Ht|].
  destruct (trim (c :: s)) as [|c1 s1] eqn:Etrim; [done|].
  unfold App.processVoice. run. rewrite Hn. run. rewrite Hok. run.
  rewrite Hj. run. rewrite Hg. run. rewrite Etrim. run.
  repeat split; [by since_log|].
  exact (messages_of_without_typing (children (chat w))).
Qed.

Lemma processVoice_text_mode_fills_input_witness :
  input_value
    (chat (App.processVoice [] TextMode
             (Examples.page [] (Examples.env_at 10 0
                (Examples.answering (VObj [(str "text", VStr (str " buy AAPL"))]))))).2)
  = str " buy AAPL".
Proof.
  assert (Ht : trim (str " buy AAPL") <> []) by (vm_compute; discriminate).
  exact (proj1 (proj2 (proj2
           (processVoice_text_mode_fills_input []
              (Examples.page [] (Examples.env_at 10 0
                 (Examples.answering (VObj [(str "text", VStr (str " buy AAPL"))]))))
              (Response true (Some (VObj [(str "text", VStr (str " buy AAPL"))])))
              (VObj [(str "text", VStr (str " buy AAPL"))]) (str " buy AAPL")
              eq_refl eq_refl eq_refl eq_refl Ht)))).
Defined.

(** ** Voice: speaking the reply *)


(** [voices.find(...)] answers with the first voice that passes. *)
Lemma preferred_voice_first (voices : list jsstring) (v : jsstring) :
  App.preferred_voice voices = Some v ->
  exists i,
    voices !! i = Some v /\ names_preferred v = true /\
    forall j v', (j < i)%nat -> voices !! j = Some v' ->
                 names_preferred v' = false.
Proof.
  unfold App.preferred_voice.
  induction voices as [|a voices IH]; cbn; [done|].
  fold (names_preferred a). destruct (names_preferred a) eqn:Ea.
  - intros [= <-]. exists 0%nat. repeat split; [done|]. intros j v' Hj. lia.
  - intros H. destruct (IH H) as (i & Hi & Hv & Hbefore).
    exists (S i). repeat split; [done|done|].
    intros [|j] v' Hj Hl; cbn in Hl; [by simplify_eq|].
    apply (Hbefore j); [lia|done].
Qed.

(** X13: [speakResponse] never throws and makes one synthesis request.
    The browser speaks the text exactly when the remote audio did not
    play: when the request failed, delivered no audio, or the audio
    could not be played; it then uses the first installed voice, in
    the order the browser lists them, whose name includes Samantha,
    Google or Microsoft, or the default voice when there is none;
    without speech synthesis nothing is spoken. *)
Theorem speakResponse_falls_back (text : value) (w : world) :
  let o := net (platform w) (fetches w) (synthesize_request text) in
  let l := since w (App.speakResponse text w).2 in
  let fallback := match speech_voices (platform w) with
                  | Some voices => [(text, App.preferred_voice voices)]
                  | None => []
                  end in
  (App.speakResponse text w).1 = Ok tt /\
  fetched l = [synthesize_request text] /\
  (forall audio, remote_audio o = Some audio ->
     played l = [audio] /\
     spoken l = if playback_fails (platform w) audio then fallback else []) /\
  (remote_audio o = None -> played l = [] /\ spoken l = fallback) /\
  (forall voices v,
     App.preferred_voice voices = Some v ->
     exists i,
       voices !! i = Some v /\ names_preferred v = true /\
       forall j v', (j < i)%nat -> voices !! j = Some v' ->
                    names_preferred v' = false) /\
  (forall voices,
     App.preferred_voice voices = None ->
     forall v, v ∈ voices -> names_preferred v = false).
Proof.
  intros o l fallback. subst o l fallback. unfold synthesize_request, remote_audio.
  pose proof preferred_voice_first as Hfirst.
  assert (Hnone : forall voices,
                    App.preferred_voice voices = None ->
                    forall v, v ∈ voices -> names_preferred v = false).
  { intros voices H v Hv. apply list_elem_of_In in Hv.
    exact (find_none _ _ H v Hv). }
  unfold App.speakResponse, App.useBrowserSpeech, App.play_audio. run.
  assert (Hfin : forall P Q R : Prop, P -> Q -> R ->
            P /\ Q /\ R /\
            (forall voices v,
               App.preferred_voice voices = Some v ->
               exists i,
                 voices !! i = Some v /\ names_preferred v = true /\
                 forall j v', (j < i)%nat -> voices !! j = Some v' ->
                              names_preferred v' = false) /\
            (forall voices,
               App.preferred_voice voices = None ->
               forall v, v ∈ voices -> names_preferred v = false)) by tauto.
  destruct (net _ _ _) as [|[okf j]]; run.
  { destruct (speech_voices (platform w)) as [voices|]; run.
    all: split; [done|]; since_log; cbn; apply Hfin; done. }
  destruct okf; run.
  2:{ destruct (speech_voices (platform w)) as [voices|]; run.
      all: split; [done|]; since_log; cbn; apply Hfin; done. }
  destruct j as [data|]; run.
  2:{ destruct (speech_voices (platform w)) as [voices|]; run.
      all: split; [done|]; since_log; cbn; apply Hfin; done. }
  destruct (get data (str "audio")) as [audio|e]; run.
  2:{ destruct (speech_voices (platform w)) as [voices|]; run.
      all: split; [done|]; since_log; cbn; apply Hfin; done. }
  destruct (truthy audio) eqn:Ea; run.
  2:{ destruct (speech_voices (platform w)) as [voices|]; run.
      all: split; [done|]; since_log; cbn; apply Hfin; done. }
  destruct (playback_fails (platform w) audio) eqn:Ep; run.
  all: destruct (speech_voices (platform w)) as [voices|]; run.
  all: split; [done|]; since_log; cbn; apply Hfin; try done.
  all: intros a [= <-]; by rewrite Ep.
Qed.

Lemma speakResponse_falls_back_witness :
  spoken (since Examples.voice_page
            (App.speakResponse (VStr (str "Hold.")) Examples.voice_page).2)
  = [(VStr (str "Hold."), Some (str "Google US English"))].
Proof.
  exact (proj2 (proj1 (proj2 (proj2 (proj2
           (speakResponse_falls_back (VStr (str "Hold.")) Examples.voice_page))))
           eq_refl)).
Defined.

(** ** Morning wisdom: once a day, and only with permission *)

(** X14: once [checkMorningWisdom] has shown the notification, any
    later invocation on the same date does nothing, whatever the hour
    and whatever the network would answer: the stored date stops it
    before any request. *)
Theorem checkMorningWisdom_once_a_day (w later : world) (data wisdom : value) :
  7 <= hours (platform w) < 9 ->
  permission (platform w) = str "granted" ->
  storage w !! App.wisdom_key <> Some (date_string (platform w)) ->
  answered (net (platform w) (fetches w) wisdom_request) = Some data ->
  get data (str "wisdom") = Ok wisdom ->
  truthy wisdom = true ->
  storage later = storage (App.checkMorningWisdom w).2 ->
  date_string (platform later) = date_string (platform w) ->
  App.checkMorningWisdom later = (Ok tt, later).
Proof.
  intros [H7 H9] Hp Hs Ha Hg Ht Hst Hd.
  assert (E : storage (App.checkMorningWisdom w).2 !! App.wisdom_key
              = Some (date_string (platform w))).
  { unfold App.checkMorningWisdom, wisdom_request in *. run.
    assert (E : (hours (platform w) <? 7) || (9 <=? hours (platform w)) = false).
    { apply orb_false_iff. rewrite N.ltb_ge, N.leb_gt. lia. }
    rewrite E. run. rewrite bool_decide_eq_false_2 by done. run.
    rewrite Hp, (proj2 (eqs_true _ _) eq_refl). run.
    destruct (net _ _ _) as [|r]; [done|]. cbn in Ha. run. rewrite Ha. run.
    rewrite Hg. run. rewrite Ht. run. apply lookup_insert_eq. }
  unfold App.checkMorningWisdom. run.
  destruct ((hours (platform later) <? 7) || (9 <=? hours (platform later)));
    [done|]. run.
  rewrite Hst, E, Hd. by rewrite bool_decide_eq_true_2.
Qed.

Lemma checkMorningWisdom_once_a_day_witness :
  App.checkMorningWisdom (App.checkMorningWisdom Examples.morning_page).2
  = (Ok tt, (App.checkMorningWisdom Examples.morning_page).2).
Proof.
  assert (H7 : 7 <= hours (platform Examples.morning_page) < 9)
    by (split; [vm_compute; discriminate | reflexivity]).
  assert (Hs : storage Examples.morning_page !! App.wisdom_key
               <> Some (date_string (platform Examples.morning_page)))
    by (vm_compute; discriminate).
  apply (checkMorningWisdom_once_a_day Examples.morning_page
           (App.checkMorningWisdom Examples.morning_page).2
           Examples.wisdom_body (VStr (str "Buy low, sell high."))
           H7 eq_refl Hs eq_refl eq_refl eq_refl eq_refl).
  vm_compute. reflexivity.
Defined.

(** X15: without the notification permission [checkMorningWisdom] does
    nothing.  With it, inside the window, a request that is rejected or
    whose body is not JSON is swallowed: the handler returns normally,
    shows nothing and stores nothing, so the next invocation tries
    again. *)
Theorem checkMorningWisdom_needs_permission_and_answer (w : world) :
  (permission (platform w) <> str "granted" ->
   App.checkMorningWisdom w = (Ok tt, w)) /\
  (7 <= hours (platform w) < 9 ->
   permission (platform w) = str "granted" ->
   storage w !! App.wisdom_key <> Some (date_string (platform w)) ->
   answered (net (platform w) (fetches w) wisdom_request) = None ->
   let w' := (App.checkMorningWisdom w).2 in
   (App.checkMorningWisdom w).1 = Ok tt /\
   fetched (since w w') = [wisdom_request] /\
   notifications (since w w') = [] /\
   storage w' = storage w).
Proof.
  split.
  - intros Hp. apply eqs_false in Hp. unfold App.checkMorningWisdom. run.
    destruct ((hours (platform w) <? 7) || (9 <=? hours (platform w))); [done|].
    run. case_bool_decide; [done|]. run. by rewrite Hp.
  - intros [H7 H9] Hp Hs Ha. unfold App.checkMorningWisdom, wisdom_request in *. run.
    assert (E : (hours (platform w) <? 7) || (9 <=? hours (platform w)) = false).
    { apply orb_false_iff. rewrite N.ltb_ge, N.leb_gt. lia. }
    rewrite E. run. rewrite bool_decide_eq_false_2 by done. run.
    rewrite Hp, (proj2 (eqs_true _ _) eq_refl). run.
    destruct (net _ _ _) as [|[okf [data|]]]; [|done|]; run;
      (split; [done|]); since_log; done.
Qed.

Lemma checkMorningWisdom_needs_permission_and_answer_witness :
  notifications
    (since (Examples.page [] (Examples.env_at 8 15 Examples.offline))
       (App.checkMorningWisdom
          (Examples.page [] (Examples.env_at 8 15 Examples.offline))).2) = [] /\
  storage (App.checkMorningWisdom
             (Examples.page [] (Examples.env_at 8 15 Examples.offline))).2
  = storage (Examples.page [] (Examples.env_at 8 15 Examples.offline)).
Proof.
  assert (H7 : 7 <= hours (platform (Examples.page []
                 (Examples.env_at 8 15 Examples.offline))) < 9)
    by (split; [vm_compute; discriminate | reflexivity]).
  assert (Hs : storage (Examples.page [] (Examples.env_at 8 15 Examples.offline))
                 !! App.wisdom_key
               <> Some (date_string (platform (Examples.page []
                          (Examples.env_at 8 15 Examples.offline)))))
    by (vm_compute; discriminate).
  destruct (proj2 (checkMorningWisdom_needs_permission_and_answer
                     (Examples.page [] (Examples.env_at 8 15 Examples.offline)))
              H7 eq_refl Hs eq_refl) as (_ & _ & H3 & H4).
  split; [exact H3 | exact H4].
Defined.

(** ** Ticker: failures, the defaults, and the timer *)


(** X16: without the ticker element [loadTicker] does nothing.  With
    it, when the portfolio or the watchlist cannot be read (request
    rejected, body not JSON, member missing or not a list, an entry
    that is [null]), both list requests have been made but no quote is
    requested, the ticker shows that market data is unavailable, and no
    refresh timer is started. *)
Theorem loadTicker_without_lists (w : world) :
  (has_ticker (platform w) = false -> App.loadTicker w = (Ok tt, w)) /\
  (has_ticker (platform w) = true ->
   listed (str "portfolio") (net (platform w) (fetches w) portfolio_request) = None
   \/ listed (str "watchlist")
        (net (platform w) (S (fetches w)) watchlist_request) = None ->
   let w' := (App.loadTicker w).2 in
   (App.loadTicker w).1 = Ok tt /\
   fetched (since w w') = [portfolio_request; watchlist_request] /\
   intervals (since w w') = [] /\
   ticker_content w' = unavailable).
Proof.
  split.
  - intros Hno. unfold App.loadTicker. run. by rewrite Hno.
  - intros Hhas. unfold listed, answered, portfolio_request, watchlist_request.
    destruct (net (platform w) (fetches w) _) as [|[ok1 [d1|]]] eqn:E1;
      destruct (net (platform w) (S (fetches w)) _) as [|[ok2 [d2|]]] eqn:E2;
      unfold App.loadTicker; run; rewrite Hhas; run;
      rewrite ?E1; run; rewrite ?E2; run;
      try (intros _; split; [done|]; since_log; done).
    all: repeat match goal with
         | |- context [get ?d ?k] =>
             destruct (get d k); run;
             try (intros _; split; [done|]; since_log; done)
         | |- context [App.tickers_of ?v] =>
             destruct (App.tickers_of v); run;
             try (intros _; split; [done|]; since_log; done)
         end.
    all: intros [?|?]; done.
Qed.

Lemma loadTicker_without_lists_witness :
  ticker_content
    (App.loadTicker (Examples.page [] (Examples.env_at 10 0 Examples.offline))).2
  = unavailable.
Proof.
  exact (proj2 (proj2 (proj2
           (proj2 (loadTicker_without_lists
                     (Examples.page [] (Examples.env_at 10 0 Examples.offline)))
              eq_refl (or_introl eq_refl))))).
Defined.



Lemma map_m_fetch_start_exact (f : value -> request) (tickers : list value)
    (w : world) :
  map_m (fun ticker => fetch_start (f ticker)) tickers w
  = (Ok (numbered (fetches w) (List.map f tickers)),
     fold_left issue (List.map f tickers) w).
Proof.
  revert w. induction tickers as [|t tickers IH]; intros w; cbn [map_m List.map].
  - done.
  - erewrite bind_ok by reflexivity. erewrite bind_ok by apply IH. done.
Qed.

Lemma fold_issue (reqs : list request) (w : world) :
  log (fold_left issue reqs w) = log w ++ List.map EFetch reqs /\
  platform (fold_left issue reqs w) = platform w.
Proof.
  revert w. induction reqs as [|r reqs IH]; intros w; cbn.
  - by rewrite app_nil_r.
  - destruct (IH (issue w r)) as [-> ->]. cbn. by rewrite <- app_assoc.
Qed.

Lemma fold_settle (pending : list (nat * request)) (w : world) :
  log (fold_left settle_one pending w)
  = log w ++ List.map (fun p => ESettled p.1) pending /\
  platform (fold_left settle_one pending w) = platform w.
Proof.
  revert w. induction pending as [|p pending IH]; intros w; cbn.
  - by rewrite app_nil_r.
  - destruct (IH (settle_one w p)) as [-> ->]. cbn. by rewrite <- app_assoc.
Qed.

Lemma map_m_quote_data_exact (pending : list (nat * request)) (w : world) :
  map_m App.quote_data pending w
  = (Ok (List.map (quote_answer w) pending), fold_left settle_one pending w).
Proof.
  revert w. induction pending as [|p pending IH]; intros w; cbn [map_m List.map].
  - done.
  - erewrite bind_ok by reflexivity. erewrite bind_ok by apply IH. done.
Qed.


Lemma updateTickerWithStocks_exact (tickers : list value) (w : world) :
  let reqs := List.map App.quote_request tickers in
  let pending := numbered (fetches w) reqs in
  App.updateTickerWithStocks tickers w
  = (Ok tt,
     set_ticker_content (ticker_for (List.map (quote_answer w) pending))
       (fold_left settle_one pending (fold_left issue reqs w))).
Proof.
  cbv zeta. unfold App.updateTickerWithStocks, try_catch, ticker_for, unavailable.
  erewrite bind_ok by apply map_m_fetch_start_exact.
  erewrite bind_ok by apply map_m_quote_data_exact.
  assert (E : forall p, quote_answer (fold_left issue
                          (List.map App.quote_request tickers) w) p
                        = quote_answer w p).
  { intros p. unfold quote_answer.
    by rewrite (proj2 (fold_issue (List.map App.quote_request tickers) w)). }
  rewrite (List.map_ext _ _ E).
  destruct (forallb App.renders _); [|done].
  by destruct (List.filter App.has_price _).
Qed.



(** ** Ticker: what is shown for the quotes *)


Lemma numbered_answers (w : world) (n : nat) (tickers : list value) :
  List.map (quote_answer w) (numbered n (List.map App.quote_request tickers))
  = imap (fun i t => quote_answer w ((n + i)%nat, App.quote_request t)) tickers.
Proof.
  revert n. induction tickers as [|t tickers IH]; intros n; [done|].
  cbn [List.map numbered]. rewrite imap_cons, IH. f_equal.
  - by rewrite Nat.add_0_r.
  - apply imap_ext. intros i x _. cbn. by rewrite Nat.add_succ_r.
Qed.

Lemma updateTickerWithStocks_quotes (tickers : list value) (w : world) :
  (App.updateTickerWithStocks tickers w).1 = Ok tt /\
  ticker_content (App.updateTickerWithStocks tickers w).2
  = ticker_for (quotes w tickers) /\
  fetched (since w (App.updateTickerWithStocks tickers w).2)
  = List.map App.quote_request tickers.
Proof.
  rewrite updateTickerWithStocks_exact. cbn.
  split; [done|]. split; [by rewrite numbered_answers|].
  erewrite since_app.
  2:{ cbn. rewrite (proj1 (fold_settle _ _)), (proj1 (fold_issue _ _)).
      rewrite <- app_assoc. reflexivity. }
  rewrite fetched_app, fetched_requests.
  assert (H : forall ps : list (nat * request),
            fetched (List.map (fun p => ESettled (p.1)) ps) = [])
    by (intros ps; induction ps; [done|cbn; done]).
  by rewrite H, app_nil_r.
Qed.

Lemma quotes_elem (w : world) (tickers : list value) (d : value) :
  d ∈ quotes w tickers <->
  exists i t, tickers !! i = Some t /\ d = quote_of w i t.
Proof.
  unfold quotes. rewrite list_elem_of_lookup. split.
  - intros (i & Hi). apply list_lookup_imap_Some in Hi as (t & Ht & ->).
    by exists i, t.
  - intros (i & t & Ht & ->). exists i. rewrite list_lookup_imap, Ht. done.
Qed.

(** X18: when no quote can be used (the request is rejected, the body
    is not JSON or is [null], the price is missing or zero), the
    ticker says that no stock data is available; one request per
    symbol has been made, in the order of the symbols, and nothing is
    thrown. *)
Theorem updateTickerWithStocks_no_usable_quote (tickers : list value) (w : world) :
  (forall i t, tickers !! i = Some t -> App.has_price (quote_of w i t) = false) ->
  (App.updateTickerWithStocks tickers w).1 = Ok tt /\
  ticker_content (App.updateTickerWithStocks tickers w).2 = no_data /\
  fetched (since w (App.updateTickerWithStocks tickers w).2)
  = List.map App.quote_request tickers.
Proof.
  intros Hnone.
  destruct (updateTickerWithStocks_quotes tickers w) as (Hr & Hc & Hf).
  split; [done|]. split; [|done]. rewrite Hc. unfold ticker_for.
  assert (E : List.filter App.has_price (quotes w tickers) = []).
  { destruct (List.filter App.has_price (quotes w tickers)) as [|d l] eqn:E;
      [done|].
    assert (Hd : List.In d (List.filter App.has_price (quotes w tickers)))
      by (rewrite E; by left).
    apply filter_In in Hd as [Hin Hp].
    apply list_elem_of_In, quotes_elem in Hin as (i & t & Ht & ->).
    by rewrite (Hnone i t Ht) in Hp. }
  by rewrite E.
Qed.

Lemma updateTickerWithStocks_no_usable_quote_witness :
  ticker_content
    (App.updateTickerWithStocks [VStr (str "AAPL"); VStr (str "IBM")]
       (Examples.page [] (Examples.env_at 10 0 Examples.offline))).2
  = no_data.
Proof.
  refine (proj1 (proj2 (updateTickerWithStocks_no_usable_quote
                          [VStr (str "AAPL"); VStr (str "IBM")]
                          (Examples.page [] (Examples.env_at 10 0 Examples.offline))
                          _))).
  intros [|[|i]] t Ht; cbn in Ht; simplify_eq; reflexivity.
Defined.

(** X19: one quote whose price is there but is not a number (or whose
    change is not) makes the whole ticker read that market data is
    unavailable, whatever the other quotes are; nothing is thrown. *)
Theorem updateTickerWithStocks_one_bad_quote (tickers : list value) (w : world)
    (i : nat) (t : value) :
  tickers !! i = Some t ->
  App.has_price (quote_of w i t) = true ->
  App.renders (quote_of w i t) = false ->
  (App.updateTickerWithStocks tickers w).1 = Ok tt /\
  ticker_content (App.updateTickerWithStocks tickers w).2 = unavailable.
Proof.
  intros Ht Hp Hbad.
  destruct (updateTickerWithStocks_quotes tickers w) as (Hr & Hc & _).
  split; [done|]. rewrite Hc. unfold ticker_for.
  destruct (forallb App.renders _) eqn:Hall; [|done].
  rewrite forallb_forall in Hall.
  rewrite Hall in Hbad; [done|].
  apply filter_In. split; [|done].
  apply list_elem_of_In, quotes_elem. by exists i, t.
Qed.

Lemma updateTickerWithStocks_one_bad_quote_witness :
  ticker_content
    (App.updateTickerWithStocks [VStr (str "AAPL"); VStr (str "IBM")]
       (Examples.page []
          (Examples.env_at 10 0
             (Examples.answering
                (VObj [(str "price", VStr (str "12.50"))]))))).2
  = unavailable.
Proof.
  refine (proj2 (updateTickerWithStocks_one_bad_quote
                   [VStr (str "AAPL"); VStr (str "IBM")]
                   (Examples.page []
                      (Examples.env_at 10 0
                         (Examples.answering
                            (VObj [(str "price", VStr (str "12.50"))]))))
                   1 (VStr (str "IBM")) _ _ _)).
  - reflexivity.
  - vm_compute; reflexivity.
  - vm_compute; reflexivity.
Defined.

(** X20: when every quote that has a price can be rendered and there
    is at least one, the ticker shows exactly the quotes with a price,
    in the order of their symbols, and shows that run twice over. *)
Theorem updateTickerWithStocks_shows_priced_twice (tickers : list value)
    (w : world) (i : nat) (t : value) :
  tickers !! i = Some t ->
  App.has_price (quote_of w i t) = true ->
  (forall j u, tickers !! j = Some u ->
               App.has_price (quote_of w j u) = true ->
               App.renders (quote_of w j u) = true) ->
  let priced := List.filter App.has_price (quotes w tickers) in
  ticker_content (App.updateTickerWithStocks tickers w).2
  = TickerItems (priced ++ priced) /\
  quote_of w i t ∈ priced.
Proof.
  intros Ht Hp Hall priced.
  destruct (updateTickerWithStocks_quotes tickers w) as (_ & Hc & _).
  assert (Hin : quote_of w i t ∈ priced).
  { apply list_elem_of_In, filter_In. split; [|done].
    apply list_elem_of_In, quotes_elem. by exists i, t. }
  split; [|done]. rewrite Hc. unfold ticker_for. fold priced.
  assert (E : forallb App.renders priced = true).
  { apply forallb_forall. intros d Hd. apply filter_In in Hd as [Hd Hpd].
    apply list_elem_of_In, quotes_elem in Hd as (j & u & Hu & ->).
    by apply Hall. }
  rewrite E. destruct priced; [by apply elem_of_nil in Hin|done].
Qed.

Lemma updateTickerWithStocks_shows_priced_twice_witness :
  quote_of Examples.ticker_page 0 (VStr (str "AAPL"))
  ∈ List.filter App.has_price
      (quotes Examples.ticker_page [VStr (str "AAPL"); VStr (str "IBM")]).
Proof.
  refine (proj2 (updateTickerWithStocks_shows_priced_twice
                   [VStr (str "AAPL"); VStr (str "IBM")]
                   Examples.ticker_page 0 (VStr (str "AAPL")) _ _ _)).
  - reflexivity.
  - vm_compute; reflexivity.
  - intros [|[|j]] u Hu _; cbn in Hu; simplify_eq; vm_compute; reflexivity.
Defined.

(** ** Voice: one recording, from the first tap to the reply *)


Lemma record_spec (chunks : list (list N)) (w : world) :
  record chunks w
  = set_voice (set_audio_chunks (fun held => held ++ chunks)) w.
Proof.
  unfold record. revert w. induction chunks as [|c chunks IH]; intros w; cbn.
  - destruct w as [c0 [] ? ? ? ? ?]. unfold set_voice, set_audio_chunks. cbn.
    by rewrite app_nil_r.
  - rewrite IH. destruct w as [c0 [] ? ? ? ? ?]. run.
    unfold set_voice, set_audio_chunks. cbn. by rewrite <- app_assoc.
Qed.

(** X21: a second tap on stop is ignored: after [stopVoice], another
    [stopVoice] changes nothing and stops no recorder. *)
Theorem stopVoice_second_tap_ignored (w : world) :
  App.stopVoice (App.stopVoice w).2 = (Ok tt, (App.stopVoice w).2).
Proof.
  unfold App.stopVoice. run.
  destruct (recorder (voice w)) eqn:Hr; run; [|by rewrite Hr].
  destruct (is_recording (voice w)) eqn:Hi; run; rewrite Hr; [done|].
  by rewrite Hi.
Qed.

(** X22: one recording.  With the microphone granted, [startVoice]
    opens the modal with the prompt of the mode; the chunks the
    recorder hands over after that, and only those, whatever an earlier
    recording left behind, are sent as one audio file once the
    recording is stopped; after [onstop] the modal is hidden again,
    nothing is being recorded and every track of the stream is
    stopped. *)
Theorem recording_sends_its_own_chunks (mode : voice_mode) (tracks : nat)
    (chunks : list (list N)) (w : world) :
  microphone (platform w) = Some tracks ->
  let w1 := (App.startVoice mode w).2 in
  let w3 := (App.stopVoice (record chunks w1)).2 in
  let w4 := (App.onstop mode w3).2 in
  (voice_modal_hidden (voice w1) = false /\
   voice_status (voice w1) = App.listening_status mode) /\
  (exists tail,
     since w w4
     = ERecorderStart :: ERecorderStop
         :: EFetch (transcribe_request (concat chunks)) :: tail) /\
  is_recording (voice w4) = false /\
  voice_modal_hidden (voice w4) = true /\
  tracks_live (voice w4) = replicate tracks false.
Proof.
  intros Hmic. cbv zeta. rewrite record_spec.
  unfold App.startVoice. run. rewrite Hmic. run.
  split; [done|].
  unfold App.stopVoice. run. unfold App.onstop. run.
  match goal with
  | |- context [App.processVoice ?blob mode ?w0] =>
      destruct (returns_processVoice blob mode w0) as [[] Hr];
      destruct (calm_processVoice blob mode w0) as [Hv _];
      destruct (processVoice_transcribes_first blob mode w0) as [l Hl];
      destruct (App.processVoice blob mode w0) as [r w2]
  end.
  cbn in *. subst r. cbn. rewrite Hv. cbn.
  split; [|split; [done|split; [done|]]].
  - exists l. apply since_app. cbn. rewrite Hl. by rewrite <- !app_assoc.
  - clear. induction tracks as [|n IH]; [done|]. cbn. by rewrite IH.
Qed.

Lemma recording_sends_its_own_chunks_witness :
  tracks_live
    (voice
       (App.onstop ChatMode
          (App.stopVoice
             (record [[1; 2]; [3]]
                (App.startVoice ChatMode Examples.voice_page).2)).2).2)
  = replicate 1 false.
Proof.
  exact (proj2 (proj2 (proj2 (proj2
           (recording_sends_its_own_chunks ChatMode 1 [[1; 2]; [3]]
              Examples.voice_page eq_refl))))).
Defined.

(** ** Rendering: text without markup *)


Lemma plain_cons (a : N) (s : jsstring) :
  forallb plain (a :: s) = true ->
  ((a =? 38) = false /\ (a =? 60) = false /\ (a =? 62) = false /\
   (a =? 42) = false /\ (a =? 95) = false /\ is_line_terminator a = false) /\
  forallb plain s = true.
Proof.
  cbn. intros [Ha Hs]%andb_prop. split; [|done].
  unfold plain in Ha. rewrite negb_true_iff, !orb_false_iff in Ha. tauto.
Qed.

Lemma replace_char_plain (c : N) (by_ s : jsstring) :
  (c = 38 \/ c = 60 \/ c = 62 \/ c = 10) ->
  forallb plain s = true -> replace_char c by_ s = s.
Proof.
  intros Hc. unfold replace_char.
  induction s as [|a s IH]; [done|].
  intros [(H38 & H60 & H62 & _ & _ & Hlt) Hs]%plain_cons. cbn.
  rewrite (IH Hs).
  unfold is_line_terminator in Hlt. rewrite !orb_false_iff in Hlt.
  destruct Hc as [-> | [-> | [-> | ->]]].
  - by rewrite H38.
  - by rewrite H60.
  - by rewrite H62.
  - by rewrite (proj1 (proj1 (proj1 Hlt))).
Qed.

Lemma replace_strong_plain (c : N) (s : jsstring) :
  (c = 42 \/ c = 95) ->
  forallb plain s = true -> replace_strong c 0 s = s.
Proof.
  intros Hc. induction s as [|a s IH]; [done|].
  intros [(_ & _ & _ & H42 & H95 & _) Hs]%plain_cons.
  assert (Ha : (a =? c) = false) by (by destruct Hc as [-> | ->]).
  cbn. destruct s as [|b u]; cbn.
  - done.
  - rewrite Ha. cbn. f_equal. by apply IH.
Qed.

Lemma replace_em_plain (c : N) (s : jsstring) :
  (c = 42 \/ c = 95) ->
  forallb plain s = true -> replace_em c 0 s = s.
Proof.
  intros Hc. induction s as [|a s IH]; [done|].
  intros [(_ & _ & _ & H42 & H95 & _) Hs]%plain_cons.
  assert (Ha : (a =? c) = false) by (by destruct Hc as [-> | ->]).
  cbn. rewrite Ha. f_equal. by apply IH.
Qed.

Lemma replace_li_plain (marker : jsstring -> option (nat * jsstring))
    (s : jsstring) :
  forallb plain s = true -> replace_li marker false 0 s = s.
Proof.
  induction s as [|a s IH]; [done|].
  intros [(_ & _ & _ & _ & _ & Hlt) Hs]%plain_cons.
  cbn. rewrite Hlt. f_equal. by apply IH.
Qed.

Lemma replace_li_first (marker : jsstring -> option (nat * jsstring))
    (s : jsstring) :
  marker s = None ->
  forallb plain s = true -> replace_li marker true 0 s = s.
Proof.
  destruct s as [|a s]; [done|].
  intros Hm [(_ & _ & _ & _ & _ & Hlt) Hs]%plain_cons.
  cbn [replace_li]. unfold li_at. rewrite Hm, Hlt. f_equal.
  by apply replace_li_plain.
Qed.

Lemma replace_blank_line_plain (s : jsstring) :
  forallb plain s = true -> replace_blank_line 0 s = s.
Proof.
  induction s as [|a s IH]; [done|].
  intros [(_ & _ & _ & _ & _ & Hlt) Hs]%plain_cons.
  unfold is_line_terminator in Hlt. rewrite !orb_false_iff in Hlt.
  cbn. destruct s as [|b u]; [done|].
  rewrite (proj1 (proj1 (proj1 Hlt))). cbn. f_equal. by apply IH.
Qed.

Lemma wrap_ul_plain (s : jsstring) :
  forallb plain s = true -> wrap_ul 0 false s = s.
Proof.
  induction s as [|a s IH]; [done|].
  intros [(_ & H60 & _) Hs]%plain_cons.
  cbn [wrap_ul]. unfold li_group_at.
  change (str "<li>") with [60; 108; 105; 62].
  cbn [starts_with]. rewrite (N.eqb_sym 60 a), H60. cbn. f_equal. by apply IH.
Qed.

(** X23: a one-line text without [&], [<], [>], [*] and [_] that does
    not start with a dash, a bullet or a digit is rendered as it is,
    inside one paragraph. *)
Theorem formatMessage_plain_text (s : jsstring) :
  forallb plain s = true ->
  opens_item s = false ->
  formatMessage (VStr s) = Ok (str "<p>" ++ s ++ str "</p>").
Proof.
  intros Hs Hfirst. unfold formatMessage, escape_html, markdown. cbv zeta.
  rewrite (replace_char_plain 38), (replace_char_plain 60),
    (replace_char_plain 62) by auto.
  rewrite (replace_strong_plain 42), (replace_strong_plain 95) by auto.
  rewrite (replace_em_plain 42), (replace_em_plain 95) by auto.
  assert (Hb : bullet_marker s = None).
  { destruct s as [|a t]; [done|]. cbn [opens_item] in Hfirst.
    apply orb_false_iff in Hfirst as [Hd _]. cbn [bullet_marker].
    by rewrite Hd. }
  assert (Hn : number_marker s = None).
  { destruct s as [|a t]; [done|]. cbn [opens_item] in Hfirst.
    apply orb_false_iff in Hfirst as [_ Hd]. unfold number_marker.
    cbn [take_while drop_while]. by rewrite Hd. }
  rewrite (replace_li_first bullet_marker s), (replace_li_first number_marker s)
    by done.
  rewrite replace_blank_line_plain, (replace_char_plain 10) by auto 6.
  rewrite wrap_ul_plain by done.
  change (str "<") with [60].
  destruct s as [|a t]; [done|].
  apply plain_cons in Hs as [(_ & H60 & _) _].
  cbn [starts_with]. by rewrite (N.eqb_sym 60 a), H60.
Qed.

Lemma formatMessage_plain_text_witness :
  formatMessage (VStr (str "Hold for now."))
  = Ok (str "<p>" ++ str "Hold for now." ++ str "</p>").
Proof.
  apply formatMessage_plain_text; vm_compute; reflexivity.
Defined.

(** ** Voice in the briefing variant *)

(** Splits on what the platform answers, as the handler meets it. *)
Ltac answers :=
  repeat (run;
          match goal with
          | |- context [net ?p ?n ?r] => destruct (net p n r) as [|[? [?|]]]
          | |- context [get ?d ?k] => destruct (get d k)
          | |- context [truthy ?v] => destruct (truthy v) eqn:?
          | |- context [playback_fails ?p ?a] => destruct (playback_fails p a)
          end);
  run.

(** X24: whatever the transcription, the chat and the speech requests
    do, and in both modes, [processVoice] of the briefing variant
    throws nothing and leaves the loading mark hidden. *)
Theorem Briefing_processVoice_settles (audioBlob : list N) (mode : voice_mode)
    (w : world) :
  (Briefing.processVoice audioBlob mode w).1 = Ok tt /\
  loading_hidden (chat (Briefing.processVoice audioBlob mode w).2) = true.
Proof.
  unfold Briefing.processVoice, Briefing.speakResponse, Briefing.play_audio.
  destruct mode; answers; done.
Qed.

(** X25: the briefing variant reads the transcript off any answer that
    parses, whatever its status, and tests it for truth only.  A
    transcript that is missing or empty ends the handler in silence: no
    message, no further request.  Any other transcript, a blank one
    included, is put into the input field in text mode, and in chat
    mode is shown as the one user message and sent as the chat
    request. *)
Theorem Briefing_processVoice_transcript (audioBlob : list N) (mode : voice_mode)
    (w : world) (r : response) (data v : value) :
  net (platform w) (fetches w) (transcribe_request audioBlob) = Resolved r ->
  json r = Some data ->
  get data (str "text") = Ok v ->
  let w' := (Briefing.processVoice audioBlob mode w).2 in
  (truthy v = false ->
   fetched (since w w') = [transcribe_request audioBlob] /\
   appended_all (since w w') = [] /\
   input_value (chat w') = input_value (chat w)) /\
  (truthy v = true -> mode = TextMode ->
   fetched (since w w') = [transcribe_request audioBlob] /\
   appended_all (since w w') = [] /\
   input_value (chat w') = to_string v) /\
  (truthy v = true -> mode = ChatMode ->
   (exists rest,
      fetched (since w w')
      = transcribe_request audioBlob :: Briefing.chat_request v true :: rest) /\
   appended User (since w w')
   = [Message User (Text v) (time_string (platform w))]).
Proof.
  intros Hn Hj Hg. cbv zeta. unfold transcribe_request in *.
  unfold Briefing.processVoice, Briefing.speakResponse, Briefing.play_audio.
  run. rewrite Hn. run. rewrite Hj. run. rewrite Hg. run.
  split; [|split].
  - intros Hv. rewrite Hv. run. repeat split; by since_log.
  - intros Hv ->. rewrite Hv. run. repeat split; by since_log.
  - intros Hv ->. rewrite Hv. answers.
    all: split; [eexists; since_log; cbn; reflexivity | by since_log].
Qed.

Lemma Briefing_processVoice_transcript_witness :
  appended User
    (since Examples.voice_page
       (Briefing.processVoice [1; 2; 3] ChatMode Examples.voice_page).2)
  = [Message User (Text (VStr (str "hello")))
       (time_string (platform Examples.voice_page))].
Proof.
  refine (proj2 (proj2 (proj2
            (Briefing_processVoice_transcript [1; 2; 3] ChatMode
               Examples.voice_page
               (Response true (Some (VObj [(str "text", VStr (str "hello"))])))
               (VObj [(str "text", VStr (str "hello"))])
               (VStr (str "hello")) _ _ _)) _ _)).
  all: vm_compute; reflexivity.
Defined.

(** ** Settings: saving the profile *)


(** X26: [saveProfile] throws nothing.  A name that is empty or blank
    sends nothing and says nothing.  Any other name is posted once,
    trimmed, and the confirmation is shown exactly when the request
    resolves, whatever the status of the answer; when the request is
    rejected nothing is shown. *)
Theorem saveProfile_confirms_any_answer (userName : jsstring) (w : world) :
  let w' := (Profile.saveProfile userName w).2 in
  (Profile.saveProfile userName w).1 = Ok tt /\
  (trim userName = [] -> w' = w) /\
  (trim userName <> [] ->
   fetched (since w w') = [settings_request (trim userName)] /\
   alerts (since w w')
   = match net (platform w) (fetches w) (settings_request (trim userName)) with
     | Resolved _ => [str "Profile saved!"]
     | Rejected => []
     end).
Proof.
  cbv zeta. unfold Profile.saveProfile, settings_request.
  destruct (trim userName) as [|c name] eqn:Ht; run.
  - done.
  - destruct (net _ _ _) as [|r]; run.
    all: split; [done|]; split; [done|]; intros _; split; by since_log.
Qed.

Lemma saveProfile_confirms_any_answer_witness :
  alerts
    (since (Examples.page [] (Examples.env_at 10 0 Examples.offline))
       (Profile.saveProfile (str " Chris ")
          (Examples.page [] (Examples.env_at 10 0 Examples.offline))).2)
  = match net (platform (Examples.page [] (Examples.env_at 10 0 Examples.offline)))
            (fetches (Examples.page [] (Examples.env_at 10 0 Examples.offline)))
            (settings_request (trim (str " Chris "))) with
    | Resolved _ => [str "Profile saved!"]
    | Rejected => []
    end.
Proof.
  refine (proj2 (proj2 (proj2
            (saveProfile_confirms_any_answer (str " Chris ")
               (Examples.page [] (Examples.env_at 10 0 Examples.offline)))) _)).
  vm_compute. discriminate.
Defined.
